(** * Command-line AWS utilities: S3 download, Cognito lookup, CSV merge

    A shallow embedding of the three scripts of the repository
    ([aws_s3.py], [aws_cognito_users.py], [aws_dynamodb.py]) together with
    the properties their specification states about them.

    Python values are modelled by the Rocq type closest to them: [str] is
    [string], an argument that may be [None] is an [option], a [dict] or a
    [set] is a [gmap] or a [gset], a raised exception is the [Raise] case
    of [result].  The remote services, the file system and the CSV
    reader are explicit arguments: what the bucket lists at each
    iteration, what the operating system does with a call, what the
    reader yields for a file, and the errors they raise. *)

From Stdlib Require Import String Ascii List Bool Arith Lia.
From stdpp Require Import base option list gmap strings fin_maps fin_sets.

#[local] Set Warnings "-clear-no-such-hyp".

Open Scope string_scope.
Open Scope list_scope.

(** ** Python primitives used by the scripts *)

Module Py.

(** Exceptions the scripts raise themselves or provoke in the standard
    library, and those that reach them from outside: [csv.Error] from the
    CSV reader, an error of the AWS SDK, an error of the operating
    system. *)
Inductive exn : Type :=
| AwsConfigException (msg : string)
| TypeError (msg : string)
| ValueError (msg : string)
| CsvError (msg : string)
| SdkError (msg : string)
| OsError (msg : string).

Inductive result (A : Type) : Type :=
| Ok (a : A)
| Raise (e : exn).
Arguments Ok {A} a.
Arguments Raise {A} e.

Definition bind {A B} (m : result A) (k : A -> result B) : result B :=
  match m with
  | Ok a => k a
  | Raise e => Raise e
  end.


(** Truth value of a [str]: only the empty string is falsy. *)
Definition truthy (s : string) : bool :=
  match s with EmptyString => false | String _ _ => true end.

(** [s.startswith(p)] for two [str] values. *)
Fixpoint startswith (s p : string) {struct p} : bool :=
  match p with
  | EmptyString => true
  | String b p' =>
      match s with
      | EmptyString => false
      | String a s' => if Ascii.eqb a b then startswith s' p' else false
      end
  end.

(** [s.startswith(p)] where [p] may be [None]: CPython rejects anything
    that is neither a [str] nor a tuple of [str]. *)
Definition startswith_arg_error : string :=
  "startswith first arg must be str or a tuple of str, not NoneType".

Definition startswith_dyn (s : string) (p : option string) : result bool :=
  match p with
  | Some p => Ok (startswith s p)
  | None => Raise (TypeError startswith_arg_error)
  end.

(** [s.replace(old, new)] for a non-empty [old]: occurrences are found
    from the left and do not overlap.  [skip] counts the characters of
    the occurrence just replaced that are still to be dropped. *)
Fixpoint replace_from (old new : string) (skip : nat) (s : string) : string :=
  match s with
  | EmptyString => EmptyString
  | String c s' =>
      match skip with
      | S n => replace_from old new n s'
      | O =>
          if startswith s old
          then new +:+ replace_from old new (String.length old - 1) s'
          else String c (replace_from old new 0 s')
      end
  end.

(** With an empty [old], [new] is inserted before every character and at
    the end. *)
Fixpoint intersperse (new s : string) : string :=
  match s with
  | EmptyString => new
  | String c s' => new +:+ String c (intersperse new s')
  end.

Definition replace (s old new : string) : string :=
  match old with
  | EmptyString => intersperse new s
  | String _ _ => replace_from old new 0 s
  end.

(** The [os.environ] mapping and [os.getenv(key, default)]: the default
    is returned only when the key is absent. *)
Definition getenv (environ : gmap string string) (key default : string) : string :=
  match environ !! key with
  | Some v => v
  | None => default
  end.

End Py.

Import Py.

Notation "x <- m ;; k" := (Py.bind m (fun x => k))
  (at level 100, m at next level, right associativity).

(** ** Data shared by the S3 and the Cognito tool *)

(** The dictionary returned by [_get_aws_credentials]. *)
Record Credentials : Type := {
  aws_access_key_id : string;
  aws_secret_access_key : string;
  aws_region_name : string
}.

(** How a boto3 handle is configured: through a named profile, or with
    explicit key material and region.  Whether boto3 raises while the
    handle is built (an unknown profile, a missing region) is not decided
    by the configuration; [AwsCognitoCli.connect] stands for it. *)
Inductive ClientConfig : Type :=
| FromProfile (profile_name : string)
| FromKeys (aws_service : string) (c : Credentials).

Definition region_not_set : string :=
  "Environment variable [AWS_DEFAULT_REGION | AWS_REGION] not set".
Definition access_key_not_set : string :=
  "Environment variable AWS_ACCESS_KEY_ID_DEV not set".
Definition secret_key_not_set : string :=
  "Environment variable AWS_SECRET_ACCESS_KEY_DEV not set".

(** The region expression shared by both tools (aws_s3.py line 66,
    aws_cognito_users.py line 36):
    [os.getenv('AWS_DEFAULT_REGION', os.getenv('AWS_REGION', ''))]. *)
Definition region_from_env (environ : gmap string string) : string :=
  getenv environ "AWS_DEFAULT_REGION" (getenv environ "AWS_REGION" "").

(** A variable the specification calls absent (or empty). *)
Definition unset (environ : gmap string string) (name : string) : Prop :=
  environ !! name = None \/ environ !! name = Some "".

(** ** aws_s3.py *)

Module AwsS3Download.

Definition AWS_SERVICE : string := "s3".

(** [_get_aws_credentials], lines 59-81. *)
Definition _get_aws_credentials (environ : gmap string string) : result Credentials :=
  let aws_region_name := region_from_env environ in
  let aws_access_key_id := getenv environ "AWS_ACCESS_KEY_ID_DEV" "" in
  let aws_secret_access_key := getenv environ "AWS_SECRET_ACCESS_KEY_DEV" "" in
  if negb (truthy aws_region_name) then
    Raise (AwsConfigException region_not_set)
  else if negb (truthy aws_access_key_id) then
    Raise (AwsConfigException access_key_not_set)
  else if negb (truthy aws_secret_access_key) then
    Raise (AwsConfigException secret_key_not_set)
  else
    Ok {| aws_access_key_id := aws_access_key_id;
          aws_secret_access_key := aws_secret_access_key;
          aws_region_name := aws_region_name |}.

(** [_get_s3_client], lines 38-57: [if aws_profile] holds for a profile
    that is neither [None] nor the empty string; otherwise the handle is
    built only after the credentials were resolved. *)
Definition _get_s3_client (environ : gmap string string)
    (aws_profile : option string) : result ClientConfig :=
  match aws_profile with
  | Some p =>
      if truthy p then Ok (FromProfile p)
      else aws_credentials <- _get_aws_credentials environ ;;
           Ok (FromKeys AWS_SERVICE aws_credentials)
  | None =>
      aws_credentials <- _get_aws_credentials environ ;;
      Ok (FromKeys AWS_SERVICE aws_credentials)
  end.

(** The instance built by [__init__]. *)
Record t : Type := {
  verbose : bool;
  aws_s3_client : ClientConfig
}.

Definition init (environ : gmap string string) (aws_profile : option string)
    (verbose : bool) : result t :=
  client <- _get_s3_client environ aws_profile ;;
  Ok {| verbose := verbose; aws_s3_client := client |}.

(** One element of [Bucket(name).objects.all()]. *)
Record ObjectSummary : Type := {
  bucket_name : string;
  key : string
}.

(** An entry of [bucket_items]: the dictionary with the entries
    ['bucket_name'] and ['bucket_key']. *)
Record BucketItem : Type := {
  item_bucket_name : string;
  item_bucket_key : string
}.

(** The dictionary returned by [get_s3_bucket_list]. *)
Record BucketListing : Type := {
  bucket_size : nat;
  bucket_items : list BucketItem
}.

(** [Bucket(s3_bucket).objects.all()]: the keys of the bucket in the
    order the service enumerates them; [keys] is that enumeration. *)
Definition objects_all (s3_bucket : string) (keys : list string) : list ObjectSummary :=
  map (fun k => {| bucket_name := s3_bucket; key := k |}) keys.

(** Line 92: [sum(1 for item in bucket if item.key.startswith(s3_bucket_key))]. *)
Fixpoint count_pass (bucket : list ObjectSummary) (s3_bucket_key : option string)
    : result nat :=
  match bucket with
  | [] => Ok 0
  | item :: rest =>
      b <- startswith_dyn (key item) s3_bucket_key ;;
      n <- count_pass rest s3_bucket_key ;;
      Ok (if b then 1 + n else n)
  end.

(** Lines 98-101: the dictionary appended for a matching object. *)
Definition bucket_item_of (item : ObjectSummary) : BucketItem :=
  {| item_bucket_name := bucket_name item; item_bucket_key := key item |}.

(** Lines 95-101: the loop appending to [bucket_items]. *)
Fixpoint collect_pass (bucket : list ObjectSummary) (s3_bucket_key : option string)
    (bucket_items : list BucketItem) : result (list BucketItem) :=
  match bucket with
  | [] => Ok bucket_items
  | item :: rest =>
      b <- startswith_dyn (key item) s3_bucket_key ;;
      collect_pass rest s3_bucket_key
        (if b then bucket_items ++ [bucket_item_of item] else bucket_items)
  end.

(** One iteration over [bucket]: the collection is lazy, so every
    iteration asks the service for the listing again.  [listed] are the
    keys this iteration receives, in order; [broken] is the error of the
    SDK that ends it after them, if any. *)
Record Enumeration : Type := {
  listed : list string;
  broken : option exn
}.

(** An iteration that runs to the end of the listing. *)
Definition complete (keys : list string) : Enumeration :=
  {| listed := keys; broken := None |}.

(** What a loop over [bucket] leaves once the listed keys are consumed:
    its result, or the error that ended the iteration. *)
Definition end_of_pass {A : Type} (en : Enumeration) (a : A) : result A :=
  match broken en with
  | Some e => Raise e
  | None => Ok a
  end.

(** [get_s3_bucket_list], lines 83-106.  Line 92 iterates [bucket] once
    for the count and lines 96-101 iterate it again for the items:
    [first] is the iteration of the count, [second] that of the items. *)
Definition get_s3_bucket_list_passes (first second : Enumeration) (s3_bucket : string)
    (s3_bucket_key : option string) : result BucketListing :=
  bucket_size <- (n <- count_pass (objects_all s3_bucket (listed first)) s3_bucket_key ;;
                  end_of_pass first n) ;;
  bucket_items <- (l <- collect_pass (objects_all s3_bucket (listed second)) s3_bucket_key [] ;;
                   end_of_pass second l) ;;
  Ok {| bucket_size := bucket_size; bucket_items := bucket_items |}.

(** The lister on a bucket whose content [keys] is the same in both
    iterations, both of which run to the end. *)
Definition get_s3_bucket_list (keys : list string) (s3_bucket : string)
    (s3_bucket_key : option string) : result BucketListing :=
  get_s3_bucket_list_passes (complete keys) (complete keys) s3_bucket s3_bucket_key.

(** An idealised local file system, on which [os.makedirs] and
    [download_file] always succeed: what exists at a path.  A downloaded
    file is identified by the object it was fetched from.  The downloader
    against an arbitrary operating system is in [AwsS3Io] below. *)
Inductive node : Type :=
| Directory
| File (from_bucket from_key : string).

Definition path_exists (fs : gmap string node) (p : string) : bool :=
  match fs !! p with Some _ => true | None => false end.

Definition makedirs (fs : gmap string node) (p : string) : gmap string node :=
  <[p := Directory]> fs.

(** The local file name as the specification words it: every '/' of
    the key replaced by '_', all other characters kept. *)
Fixpoint spec_flatten_key (s3_bucket_key : string) : string :=
  match s3_bucket_key with
  | EmptyString => EmptyString
  | String c rest =>
      String (if Ascii.eqb c "/" then "_"%char else c) (spec_flatten_key rest)
  end.

(** [_get_s3_bucket_item], lines 128-137. *)
Definition target_file_of (target_folder s3_bucket_key : string) : string :=
  target_folder +:+ "/" +:+ replace s3_bucket_key "/" "_".

Definition _get_s3_bucket_item (s3_bucket s3_bucket_key target_folder : string)
    (fs : gmap string node) : gmap string node :=
  let target_file := target_file_of target_folder s3_bucket_key in
  <[target_file := File s3_bucket s3_bucket_key]> fs.

(** Line 119. *)
Definition resolve_target_folder (cwd s3_bucket : string)
    (target_folder : option string) : string :=
  match target_folder with
  | Some f => if truthy f then f else cwd +:+ "/" +:+ s3_bucket
  | None => cwd +:+ "/" +:+ s3_bucket
  end.

(** Lines 125-126. *)
Definition download_all (items : list BucketItem) (target_folder : string)
    (fs : gmap string node) : gmap string node :=
  fold_left
    (fun fs item =>
       _get_s3_bucket_item (item_bucket_name item) (item_bucket_key item) target_folder fs)
    items fs.

(** [get_s3_bucket], lines 108-126, on the idealised file system and a
    bucket whose content does not change.  [cwd] is
    [CURRENT_WORKING_DIR].  An exception can then only come from the
    listing, before the file system is touched, so the result is either
    the exception or the final file system. *)
Definition get_s3_bucket (cwd : string) (keys : list string) (s3_bucket : string)
    (s3_bucket_key : option string) (target_folder : option string)
    (fs : gmap string node) : result (gmap string node) :=
  bucket <- get_s3_bucket_list keys s3_bucket s3_bucket_key ;;
  if (0 <? bucket_size bucket)%nat then
    let target_folder := resolve_target_folder cwd s3_bucket target_folder in
    let fs := if negb (path_exists fs target_folder) then makedirs fs target_folder else fs in
    Ok (download_all (bucket_items bucket) target_folder fs)
  else Ok fs.

(** The namespace returned by [parse_args], lines 146-152.  No option
    declares a [default], so an omitted [--bucket-key] or [--profile] is
    [None]. *)
Record Args : Type := {
  bucket : string;
  bucket_key : option string;
  profile : option string;
  dryrun : bool;
  arg_verbose : bool
}.

(** What one run of [main] leaves behind: the listing it printed, or the
    file system after the download. *)
Inductive outcome : Type :=
| Printed (listing : BucketListing)
| Downloaded (fs : gmap string node).

(** [main], lines 140-160. *)
Definition main (environ : gmap string string) (cwd : string) (keys : list string)
    (fs : gmap string node) (args : Args) : result outcome :=
  aws_s3_downloader <- init environ (profile args) (arg_verbose args) ;;
  if dryrun args then
    bucket_items <- get_s3_bucket_list keys (bucket args) (bucket_key args) ;;
    Ok (Printed bucket_items)
  else
    fs' <- get_s3_bucket cwd keys (bucket args) (bucket_key args) None fs ;;
    Ok (Downloaded fs').

End AwsS3Download.

(** ** The downloader of aws_s3.py against the operating system *)

Module AwsS3Io.

(** The calls by which the downloader changes the file system:
    [os.makedirs(path)] and [Bucket(s3_bucket).download_file(key, filename)]. *)
Inductive fs_call : Type :=
| Makedirs (path : string)
| DownloadFile (s3_bucket s3_bucket_key filename : string).

(** The operating system and the transfer as the downloader meets them,
    over a state [W] of the outside world: [os.path.exists], and the
    effect of a call, which leaves a new state and may raise. *)
Record OS (W : Type) : Type := {
  path_exists : string -> W -> bool;
  perform : fs_call -> W -> W * option exn
}.
Arguments path_exists {W} _ _ _.
Arguments perform {W} _ _ _.

(** [_get_s3_bucket_item], lines 128-137. *)
Definition _get_s3_bucket_item {W : Type} (os : OS W)
    (s3_bucket s3_bucket_key target_folder : string) (w : W) : W * option exn :=
  let target_file := AwsS3Download.target_file_of target_folder s3_bucket_key in
  perform os (DownloadFile s3_bucket s3_bucket_key target_file) w.

(** Lines 125-126: an exception ends the loop. *)
Fixpoint download_loop {W : Type} (os : OS W) (items : list AwsS3Download.BucketItem)
    (target_folder : string) (w : W) : W * option exn :=
  match items with
  | [] => (w, None)
  | item :: rest =>
      match _get_s3_bucket_item os (AwsS3Download.item_bucket_name item)
              (AwsS3Download.item_bucket_key item) target_folder w with
      | (w', Some e) => (w', Some e)
      | (w', None) => download_loop os rest target_folder w'
      end
  end.

(** [get_s3_bucket], lines 108-126: the state the run leaves and the
    exception that ended it, if any. *)
Definition get_s3_bucket {W : Type} (os : OS W) (cwd : string)
    (first second : AwsS3Download.Enumeration) (s3_bucket : string)
    (s3_bucket_key : option string) (target_folder : option string) (w : W)
    : W * option exn :=
  match AwsS3Download.get_s3_bucket_list_passes first second s3_bucket s3_bucket_key with
  | Raise e => (w, Some e)
  | Ok bucket =>
      if (0 <? AwsS3Download.bucket_size bucket)%nat then
        let target_folder := AwsS3Download.resolve_target_folder cwd s3_bucket target_folder in
        match (if negb (path_exists os target_folder w)
               then perform os (Makedirs target_folder) w
               else (w, None)) with
        | (w', Some e) => (w', Some e)
        | (w', None) =>
            download_loop os (AwsS3Download.bucket_items bucket) target_folder w'
        end
      else (w, None)
  end.

(** A list of calls made one after the other, up to the first that
    raises. *)
Fixpoint run_calls {W : Type} (os : OS W) (calls : list fs_call) (w : W) : W * option exn :=
  match calls with
  | [] => (w, None)
  | c :: rest =>
      match perform os c w with
      | (w', Some e) => (w', Some e)
      | (w', None) => run_calls os rest w'
      end
  end.

(** An operating system that notes every call and lets it succeed;
    [present] tells which paths exist. *)
Definition recorder (present : string -> bool) : OS (list fs_call) :=
  {| path_exists := fun p _ => present p;
     perform := fun c w => (w ++ [c], None) |}.

(** The idealised file system of [AwsS3Download] as an operating system. *)
Definition map_fs : OS (gmap string AwsS3Download.node) :=
  {| path_exists := fun p fs => AwsS3Download.path_exists fs p;
     perform := fun c fs =>
       match c with
       | Makedirs p => (AwsS3Download.makedirs fs p, None)
       | DownloadFile b k filename => (<[filename := AwsS3Download.File b k]> fs, None)
       end |}.

End AwsS3Io.

(** ** aws_cognito_users.py *)

Module AwsClientService.

(** [AwsClientService._get_aws_credentials], lines 34-51. *)
Definition _get_aws_credentials (environ : gmap string string) : result Credentials :=
  let aws_region_name := region_from_env environ in
  let aws_access_key_id := getenv environ "AWS_ACCESS_KEY_ID_DEV" "" in
  let aws_secret_access_key := getenv environ "AWS_SECRET_ACCESS_KEY_DEV" "" in
  if negb (truthy aws_region_name) then
    Raise (AwsConfigException region_not_set)
  else if negb (truthy aws_access_key_id) then
    Raise (AwsConfigException access_key_not_set)
  else if negb (truthy aws_secret_access_key) then
    Raise (AwsConfigException secret_key_not_set)
  else
    Ok {| aws_access_key_id := aws_access_key_id;
          aws_secret_access_key := aws_secret_access_key;
          aws_region_name := aws_region_name |}.

(** [get_aws_client], lines 21-32: [if self.aws_profile] holds for a
    profile that is neither [None] nor the empty string. *)
Definition get_aws_client (environ : gmap string string) (aws_profile : option string)
    (aws_service : string) : result ClientConfig :=
  match aws_profile with
  | Some p =>
      if truthy p then Ok (FromProfile p)
      else aws_credentials <- _get_aws_credentials environ ;;
           Ok (FromKeys aws_service aws_credentials)
  | None =>
      aws_credentials <- _get_aws_credentials environ ;;
      Ok (FromKeys aws_service aws_credentials)
  end.

End AwsClientService.

Module AwsCognitoUser.

Definition AWS_SERVICE : string := "cognito-idp".

(** The double quote character, written by its code. *)
Definition dquote : string := String (ascii_of_nat 34) EmptyString.

(** The instance built by [__init__], lines 58-62. *)
Record t : Type := {
  verbose : bool;
  aws_cognito_client : ClientConfig;
  user_pool_id : string
}.

Definition init (environ : gmap string string) (user_pool_id : string)
    (aws_profile : option string) (verbose : bool) : result t :=
  client <- AwsClientService.get_aws_client environ aws_profile AWS_SERVICE ;;
  Ok {| verbose := verbose; aws_cognito_client := client; user_pool_id := user_pool_id |}.

(** The keyword arguments of one [list_users] call. *)
Record ListUsersRequest : Type := {
  UserPoolId : string;
  Filter : string
}.

(** Everything outside the instance that a call can read or change: the
    lines handed to the logger and the requests sent so far. *)
Record World : Type := {
  log : list string;
  calls : list ListUsersRequest
}.

(** [_log], lines 64-70. *)
Definition _log (self : t) (message : string) (w : World) : World :=
  if verbose self
  then {| log := log w ++ [message]; calls := calls w |}
  else w.

(** The filter expression of line 88. *)
Definition filter_expression (username : string) : string :=
  "username = " +:+ dquote +:+ username +:+ dquote.

(** [get_user_details], lines 80-90.  The user directory is the function
    [list_users]; what it answers may depend on the requests it has
    already seen. *)
Definition get_user_details {Response : Type}
    (list_users : list ListUsersRequest -> ListUsersRequest -> Response)
    (self : t) (username : string) (w : World) : Response * World :=
  let w := _log self ("Get user informations from cognito for user <" +:+ username +:+ ">") w in
  let request := {| UserPoolId := user_pool_id self;
                    Filter := filter_expression username |} in
  let users := list_users (calls w) request in
  (users, {| log := log w; calls := calls w ++ [request] |}).

End AwsCognitoUser.

(** ** aws_dynamodb.py *)

Module AwsDynamodb.

(** [cleanse_header], lines 15-16. *)
Definition cleanse_column (col : string) : string :=
  replace (replace col " (S)" "") " (N)" "".

Definition cleanse_header (header : gset string) : gset string :=
  set_map cleanse_column header.

(** A value stored in a [csv.DictReader] row: a field of the line, the
    [restval] [None] of a field the line lacks, or the list of surplus
    fields stored under the [restkey]. *)
Inductive cell : Type :=
| Str (s : string)
| NoneVal
| Rest (l : list string).

(** An input file is given by the rows [csv.reader] yields for it; the
    first one is the header.  [csvreader.fieldnames] is [None] for a file
    without any row. *)
Definition fieldnames (file : list (list string)) : option (list string) :=
  head file.

Definition data_lines (file : list (list string)) : list (list string) :=
  tail file.

Definition is_blank (row : list string) : bool :=
  match row with [] => true | _ :: _ => false end.

(** [dict(zip(fieldnames, row))]; the key [None] is the [restkey]. *)
Definition dict_zip (fieldnames row : list string) : gmap (option string) cell :=
  fold_left (fun d kv => <[Some (fst kv) := Str (snd kv)]> d) (combine fieldnames row) ∅.

(** One step of [DictReader.__next__] on a non-blank row. *)
Definition read_row (fieldnames row : list string) : gmap (option string) cell :=
  let d := dict_zip fieldnames row in
  let lf := length fieldnames in
  let lr := length row in
  if (lf <? lr)%nat then <[None := Rest (drop lf row)]> d
  else if (lr <? lf)%nat then
    fold_left (fun d key => <[Some key := NoneVal]> d) (drop lr fieldnames) d
  else d.

(** The rows the [DictReader] yields: blank lines are skipped. *)
Definition records_of (fieldnames : list string) (lines : list (list string))
    : list (gmap (option string) cell) :=
  map (read_row fieldnames) (List.filter (fun row => negb (is_blank row)) lines).




(** What [DictWriter.writerow] hands to the underlying writer for a row
    whose keys are all field names: the value of each column, [''] for a
    column the row lacks. *)
Definition project (header : list string) (rowdict : gmap (option string) cell) : list cell :=
  map (fun key => default (Str "") (rowdict !! Some key)) header.

(** The file has a header row and no line has more fields than the
    header. *)
Definition well_formed (file : list (list string)) : Prop :=
  match file with
  | [] => False
  | fn :: lines => Forall (fun row => length row <= length fn) lines
  end.

(** An input file as the reader meets it: [csv_rows] are the rows of the
    file, the first one the header; [reader_error] is the exception that
    ends the reading after them, if any (an undecodable byte, an error
    of the operating system). *)
Record CsvFile : Type := {
  csv_rows : list (list string);
  reader_error : option exn
}.

(** A file that is read to its end. *)
Definition parsed (rows : list (list string)) : CsvFile :=
  {| csv_rows := rows; reader_error := None |}.

(** [csv.field_size_limit()], which the script leaves at its default:
    the reader raises [csv.Error] on a field with more characters. *)
Definition field_size_limit : N := 131072.

Definition within_limit (row : list string) : bool :=
  forallb (fun field => (N.of_nat (String.length field) <=? field_size_limit)%N) row.

Definition field_limit_error : string := "field larger than field limit (131072)".

(** The body of the loop of lines 21-26 for one file.  Whatever raises
    ends the run, so only the first exception counts: the reader's own at
    the first row with an oversized field, else the one that ends the
    reading, else that of [header_fields.update(None)] for a file without
    any row. *)
Definition read_file (acc : gset string * list (gmap (option string) cell))
    (file : CsvFile)
    : result (gset string * list (gmap (option string) cell)) :=
  if negb (forallb within_limit (csv_rows file)) then
    Raise (CsvError field_limit_error)
  else
    match reader_error file with
    | Some e => Raise e
    | None =>
        match fieldnames (csv_rows file) with
        | None => Raise (TypeError "'NoneType' object is not iterable")
        | Some fn =>
            Ok (fst acc ∪ list_to_set fn,
                snd acc ++ records_of fn (data_lines (csv_rows file)))
        end
    end.

Fixpoint read_files (acc : gset string * list (gmap (option string) cell))
    (files : list CsvFile)
    : result (gset string * list (gmap (option string) cell)) :=
  match files with
  | [] => Ok acc
  | file :: rest => acc' <- read_file acc file ;; read_files acc' rest
  end.



(** [DictWriter._dict_to_list] with the default [extrasaction='raise']
    and [restval='']: a key that is no field name raises a [ValueError]
    (whose text goes on to list the offending keys). *)
Definition _dict_to_list (header : list string) (rowdict : gmap (option string) cell)
    : result (list cell) :=
  if decide (dom rowdict ⊆ list_to_set (Some <$> header)) then
    Ok (project header rowdict)
  else Raise (ValueError "dict contains fields not in fieldnames").

(** Lines 36-37. *)
Fixpoint write_rows (header : list string) (records : list (gmap (option string) cell))
    : result (list (list cell)) :=
  match records with
  | [] => Ok []
  | item :: rest =>
      r <- _dict_to_list header item ;;
      rs <- write_rows header rest ;;
      Ok (r :: rs)
  end.

(** The content of [output.csv] after a run that ended without an
    exception. *)
Record Output : Type := {
  out_header : list string;
  out_rows : list (list cell)
}.

(** The script, lines 12-37; [files] are the files of the input
    directory in the order [listdir] returns them.  [list(header_fields)]
    has no specified order; [elements] stands for whichever it takes. *)
Definition consolidate_files (files : list CsvFile) : result Output :=
  acc <- read_files (∅, []) files ;;
  let header_fields := elements (fst acc) in
  rows <- write_rows header_fields (snd acc) ;;
  Ok {| out_header := header_fields; out_rows := rows |}.

(** The script on files that are all read to their end, each given by
    its rows. *)
Definition consolidate (files : list (list (list string))) : result Output :=
  consolidate_files (map parsed files).

End AwsDynamodb.

(** ** The command line of aws_cognito_users.py *)

Module AwsCognitoCli.

(** The namespace returned by [parse_args], lines 99-104. *)
Record Args : Type := {
  username : string;
  cognito_userpool : string;
  profile : option string;
  arg_verbose : bool
}.

(** What lies outside the script in one run: [connect] is the exception
    [boto3.setup_default_session] or [boto3.client] raises while the
    handle is built (an unknown profile, a missing region), if any;
    [list_users] is the user directory, which answers a request or
    raises an error of the SDK, and may depend on the requests it has
    already seen. *)
Record Sdk (Response : Type) : Type := {
  connect : ClientConfig -> option exn;
  list_users : list AwsCognitoUser.ListUsersRequest ->
               AwsCognitoUser.ListUsersRequest -> result Response
}.
Arguments connect {Response} _ _.
Arguments list_users {Response} _ _ _.

(** [main], lines 93-109: build the instance (lines 58-62), look the
    user up, print the answer.  The result is the printed answer, or the
    exception that ended the run, together with the world the run leaves
    behind; an error raised by [list_users] leaves [get_user_details]
    and [main] as it is. *)
Definition main {Response : Type} (sdk : Sdk Response)
    (environ : gmap string string) (args : Args) (w : AwsCognitoUser.World)
    : result Response * AwsCognitoUser.World :=
  match AwsClientService.get_aws_client environ (profile args) AwsCognitoUser.AWS_SERVICE with
  | Raise e => (Raise e, w)
  | Ok client =>
      match connect sdk client with
      | Some e => (Raise e, w)
      | None =>
          let aws_cognito_user_client :=
            {| AwsCognitoUser.verbose := arg_verbose args;
               AwsCognitoUser.aws_cognito_client := client;
               AwsCognitoUser.user_pool_id := cognito_userpool args |} in
          AwsCognitoUser.get_user_details (list_users sdk) aws_cognito_user_client
            (username args) w
      end
  end.

End AwsCognitoCli.

(** ** Inputs of the consolidator without their blank lines *)

(** A file with the blank lines after its header removed. *)
Definition strip_blank (file : list (list string)) : list (list string) :=
  match file with
  | [] => []
  | fn :: lines => fn :: List.filter (fun row => negb (AwsDynamodb.is_blank row)) lines
  end.


(** * Properties *)

(** ** Strings *)

Example startswith_case : startswith "Abc" "ab" = false.
Proof. reflexivity. Qed.

Example replace_suffix : replace "amount (N)" " (N)" "" = "amount".
Proof. reflexivity. Qed.

Example replace_no_overlap : replace "aaa" "aa" "b" = "ba".
Proof. reflexivity. Qed.

Lemma startswith_empty (s : string) : startswith s "" = true.
Proof. destruct s; reflexivity. Qed.

(** [startswith] is the prefix relation on character sequences: equal
    characters at equal positions, nothing folded or normalised. *)
Lemma startswith_spec (s p : string) :
  startswith s p = true <-> exists rest, s = p +:+ rest.
Proof.
  revert s; induction p as [|b p IH]; intros s; simpl.
  - split; [intros _; exists s; reflexivity | reflexivity].
  - destruct s as [|a s].
    + split; [discriminate | intros [rest H]; discriminate].
    + destruct (Ascii.eqb_spec a b) as [->|Hne].
      * rewrite IH. split; intros [rest H]; exists rest.
        -- now rewrite H.
        -- now inversion H.
      * split; [discriminate | intros [rest H]; inversion H; contradiction].
Qed.

Lemma truthy_false_iff (s : string) : truthy s = false <-> s = "".
Proof. destruct s; simpl; split; congruence. Qed.

Lemma truthy_true_iff (s : string) : truthy s = true <-> s <> "".
Proof. destruct s; simpl; split; congruence. Qed.

(** ** Credential resolution *)

Section Credentials.

Variable environ : gmap string string.

Lemma getenv_unset name : unset environ name <-> getenv environ name "" = "".
Proof.
  unfold unset, getenv. destruct (environ !! name) as [v|]; split; intros H.
  - destruct H as [H|H]; congruence.
  - right. now subst.
  - reflexivity.
  - now left.
Qed.

Lemma getenv_present name v d : environ !! name = Some v -> getenv environ name d = v.
Proof. unfold getenv. now intros ->. Qed.

Lemma getenv_absent name d : environ !! name = None -> getenv environ name d = d.
Proof. unfold getenv. now intros ->. Qed.

(** Both tools resolve credentials by the same code. *)
Lemma credentials_agree :
  AwsClientService._get_aws_credentials environ = AwsS3Download._get_aws_credentials environ.
Proof. reflexivity. Qed.

(** The three checks, read off the code in their order. *)
Lemma credentials_cases :
  AwsS3Download._get_aws_credentials environ =
    if negb (truthy (region_from_env environ)) then
      Raise (AwsConfigException region_not_set)
    else if negb (truthy (getenv environ "AWS_ACCESS_KEY_ID_DEV" "")) then
      Raise (AwsConfigException access_key_not_set)
    else if negb (truthy (getenv environ "AWS_SECRET_ACCESS_KEY_DEV" "")) then
      Raise (AwsConfigException secret_key_not_set)
    else
      Ok {| aws_access_key_id := getenv environ "AWS_ACCESS_KEY_ID_DEV" "";
            aws_secret_access_key := getenv environ "AWS_SECRET_ACCESS_KEY_DEV" "";
            aws_region_name := region_from_env environ |}.
Proof. reflexivity. Qed.

Lemma credentials_ok_inv c :
  AwsS3Download._get_aws_credentials environ = Ok c ->
  region_from_env environ <> "" /\
  getenv environ "AWS_ACCESS_KEY_ID_DEV" "" <> "" /\
  getenv environ "AWS_SECRET_ACCESS_KEY_DEV" "" <> "" /\
  c = {| aws_access_key_id := getenv environ "AWS_ACCESS_KEY_ID_DEV" "";
         aws_secret_access_key := getenv environ "AWS_SECRET_ACCESS_KEY_DEV" "";
         aws_region_name := region_from_env environ |}.
Proof.
  rewrite credentials_cases.
  destruct (truthy (region_from_env environ)) eqn:Hr; simpl; [|discriminate].
  destruct (truthy (getenv environ "AWS_ACCESS_KEY_ID_DEV" "")) eqn:Ha; simpl; [|discriminate].
  destruct (truthy (getenv environ "AWS_SECRET_ACCESS_KEY_DEV" "")) eqn:Hs; simpl; [|discriminate].
  intros [= <-]. rewrite truthy_true_iff in Hr, Ha, Hs. auto.
Qed.

Lemma region_error_when_empty :
  region_from_env environ = "" ->
  AwsS3Download._get_aws_credentials environ = Raise (AwsConfigException region_not_set).
Proof. intros H. rewrite credentials_cases, H. reflexivity. Qed.

Lemma region_empty_when_both_unset :
  unset environ "AWS_DEFAULT_REGION" -> unset environ "AWS_REGION" -> region_from_env environ = "".
Proof.
  intros Hp Hs. apply getenv_unset in Hs. unfold region_from_env.
  destruct Hp as [Hp|Hp].
  - now rewrite (getenv_absent _ _ Hp).
  - now rewrite (getenv_present _ _ _ Hp).
Qed.

End Credentials.

(** C3, as the code has it: the region is the value of AWS_DEFAULT_REGION
    whenever that variable is present in the environment, also when
    AWS_REGION is set as well; AWS_REGION is consulted only when
    AWS_DEFAULT_REGION is absent.  The credentials record carries exactly
    this value.  A primary variable that is present but empty is not
    replaced by the secondary: resolution then raises the region error. *)
Theorem region_primary_then_secondary (environ : gmap string string) :
  (forall p, environ !! "AWS_DEFAULT_REGION" = Some p -> region_from_env environ = p) /\
  (forall s, environ !! "AWS_DEFAULT_REGION" = None ->
             environ !! "AWS_REGION" = Some s -> region_from_env environ = s) /\
  (forall c, AwsS3Download._get_aws_credentials environ = Ok c ->
             aws_region_name c = region_from_env environ /\ aws_region_name c <> "") /\
  (forall c, AwsClientService._get_aws_credentials environ = Ok c ->
             aws_region_name c = region_from_env environ /\ aws_region_name c <> "") /\
  (environ !! "AWS_DEFAULT_REGION" = Some "" ->
     AwsS3Download._get_aws_credentials environ = Raise (AwsConfigException region_not_set) /\
     AwsClientService._get_aws_credentials environ = Raise (AwsConfigException region_not_set)).
Proof.
  assert (Hok : forall c, AwsS3Download._get_aws_credentials environ = Ok c ->
             aws_region_name c = region_from_env environ /\ aws_region_name c <> "").
  { intros c Hc. apply credentials_ok_inv in Hc as (Hr & _ & _ & ->). simpl. auto. }
  repeat split.
  - intros p Hp. unfold region_from_env. now apply getenv_present.
  - intros s Hp Hs. unfold region_from_env.
    rewrite (getenv_absent _ _ _ Hp). now apply getenv_present.
  - now apply Hok.
  - now apply Hok.
  - now apply Hok.
  - now apply Hok.
  - apply region_error_when_empty. unfold region_from_env. now apply getenv_present.
  - rewrite credentials_agree.
    apply region_error_when_empty. unfold region_from_env. now apply getenv_present.
Qed.

Lemma region_primary_then_secondary_witness :
  region_from_env (<["AWS_DEFAULT_REGION" := "eu-central-1"]>
                     (<["AWS_REGION" := "us-east-1"]> ∅)) = "eu-central-1" /\
  region_from_env (<["AWS_REGION" := "us-east-1"]> ∅) = "us-east-1" /\
  AwsS3Download._get_aws_credentials
    (<["AWS_DEFAULT_REGION" := ""]> (<["AWS_REGION" := "us-east-1"]> ∅))
  = Raise (AwsConfigException region_not_set).
Proof.
  split; [|split].
  - apply (proj1 (region_primary_then_secondary
                    (<["AWS_DEFAULT_REGION" := "eu-central-1"]>
                       (<["AWS_REGION" := "us-east-1"]> ∅)))).
    reflexivity.
  - apply (proj1 (proj2 (region_primary_then_secondary (<["AWS_REGION" := "us-east-1"]> ∅))));
      reflexivity.
  - apply (proj2 (proj2 (proj2 (proj2 (region_primary_then_secondary
             (<["AWS_DEFAULT_REGION" := ""]> (<["AWS_REGION" := "us-east-1"]> ∅))))))).
    reflexivity.
Defined.

(** C3, where the code departs from first-non-empty-wins: with
    AWS_DEFAULT_REGION present but empty and AWS_REGION non-empty, the
    secondary value is not used; both tools raise the region error
    although all other variables are set. *)
Lemma region_empty_primary_hides_secondary :
  let environ : gmap string string :=
    <["AWS_DEFAULT_REGION" := ""]>
      (<["AWS_REGION" := "eu-west-1"]>
         (<["AWS_ACCESS_KEY_ID_DEV" := "AKIA"]>
            (<["AWS_SECRET_ACCESS_KEY_DEV" := "secret"]> ∅))) in
  environ !! "AWS_DEFAULT_REGION" = Some "" /\
  environ !! "AWS_REGION" = Some "eu-west-1" /\
  region_from_env environ = "" /\
  AwsS3Download._get_aws_credentials environ = Raise (AwsConfigException region_not_set) /\
  AwsClientService._get_aws_credentials environ = Raise (AwsConfigException region_not_set).
Proof. vm_compute. repeat split. Qed.

(** C8: the checks run in the order region, access key, secret key; the
    first variable found absent or empty raises its own configuration
    error, whose text names the variable; a record is returned only when
    none is missing; and the exception leaves the client factory before a
    handle exists, so no call reaches the network. *)
Theorem credentials_fail_fast (environ : gmap string string) :
  (region_from_env environ = "" ->
     AwsS3Download._get_aws_credentials environ = Raise (AwsConfigException region_not_set)) /\
  (unset environ "AWS_DEFAULT_REGION" -> unset environ "AWS_REGION" ->
     AwsS3Download._get_aws_credentials environ = Raise (AwsConfigException region_not_set)) /\
  (region_from_env environ <> "" -> unset environ "AWS_ACCESS_KEY_ID_DEV" ->
     AwsS3Download._get_aws_credentials environ = Raise (AwsConfigException access_key_not_set)) /\
  (region_from_env environ <> "" -> ~ unset environ "AWS_ACCESS_KEY_ID_DEV" ->
   unset environ "AWS_SECRET_ACCESS_KEY_DEV" ->
     AwsS3Download._get_aws_credentials environ = Raise (AwsConfigException secret_key_not_set)) /\
  (forall c, AwsS3Download._get_aws_credentials environ = Ok c ->
     region_from_env environ <> "" /\
     ~ unset environ "AWS_ACCESS_KEY_ID_DEV" /\
     ~ unset environ "AWS_SECRET_ACCESS_KEY_DEV" /\
     environ !! "AWS_ACCESS_KEY_ID_DEV" = Some (aws_access_key_id c) /\
     environ !! "AWS_SECRET_ACCESS_KEY_DEV" = Some (aws_secret_access_key c) /\
     aws_region_name c = region_from_env environ) /\
  AwsClientService._get_aws_credentials environ = AwsS3Download._get_aws_credentials environ /\
  (region_not_set <> access_key_not_set /\
   region_not_set <> secret_key_not_set /\
   access_key_not_set <> secret_key_not_set) /\
  (region_not_set =
     "Environment variable [" +:+ "AWS_DEFAULT_REGION" +:+ " | " +:+ "AWS_REGION" +:+ "] not set" /\
   access_key_not_set = "Environment variable " +:+ "AWS_ACCESS_KEY_ID_DEV" +:+ " not set" /\
   secret_key_not_set = "Environment variable " +:+ "AWS_SECRET_ACCESS_KEY_DEV" +:+ " not set") /\
  (forall e, AwsS3Download._get_aws_credentials environ = Raise e ->
     (exists var, e = AwsConfigException var) /\
     AwsS3Download._get_s3_client environ None = Raise e /\
     (forall verbose, AwsS3Download.init environ None verbose = Raise e) /\
     (forall svc, AwsClientService.get_aws_client environ None svc = Raise e) /\
     (forall pool verbose, AwsCognitoUser.init environ pool None verbose = Raise e)).
Proof.
  split; [apply region_error_when_empty|].
  split; [intros Hp Hs; apply region_error_when_empty; now apply region_empty_when_both_unset|].
  split.
  { intros Hr Ha. rewrite credentials_cases.
    apply truthy_true_iff in Hr. apply getenv_unset in Ha. now rewrite Hr, Ha. }
  split.
  { intros Hr Ha Hs. rewrite credentials_cases.
    apply truthy_true_iff in Hr. rewrite getenv_unset in Ha. apply truthy_true_iff in Ha.
    apply getenv_unset in Hs. now rewrite Hr, Ha, Hs. }
  split.
  { intros c Hc. apply credentials_ok_inv in Hc as (Hr & Ha & Hs & ->). simpl.
    rewrite !getenv_unset. repeat split; auto.
    - unfold getenv in *. destruct (environ !! "AWS_ACCESS_KEY_ID_DEV"); congruence.
    - unfold getenv in *. destruct (environ !! "AWS_SECRET_ACCESS_KEY_DEV"); congruence. }
  split; [reflexivity|].
  split; [repeat split; discriminate|].
  split; [repeat split|].
  intros e He. split.
  { rewrite credentials_cases in He.
    repeat match type of He with
           | (if ?b then _ else _) = _ => destruct b
           end; inversion He; eauto. }
  unfold AwsCognitoUser.init, AwsClientService.get_aws_client, AwsS3Download.init,
    AwsS3Download._get_s3_client.
  change (AwsClientService._get_aws_credentials environ)
    with (AwsS3Download._get_aws_credentials environ).
  rewrite He. simpl. auto.
Qed.

Lemma credentials_fail_fast_witness :
  AwsS3Download._get_aws_credentials (<["AWS_REGION" := "us-east-1"]> ∅)
  = Raise (AwsConfigException access_key_not_set) /\
  AwsS3Download._get_aws_credentials
    (<["AWS_REGION" := "us-east-1"]> (<["AWS_ACCESS_KEY_ID_DEV" := "AKIA"]> ∅))
  = Raise (AwsConfigException secret_key_not_set) /\
  AwsS3Download._get_aws_credentials (<["AWS_ACCESS_KEY_ID_DEV" := "AKIA"]> ∅)
  = Raise (AwsConfigException region_not_set).
Proof.
  split; [|split].
  - apply (proj1 (proj2 (proj2 (credentials_fail_fast (<["AWS_REGION" := "us-east-1"]> ∅))))).
    + vm_compute. discriminate.
    + left. reflexivity.
  - apply (proj1 (proj2 (proj2 (proj2 (credentials_fail_fast
             (<["AWS_REGION" := "us-east-1"]> (<["AWS_ACCESS_KEY_ID_DEV" := "AKIA"]> ∅))))))).
    + vm_compute. discriminate.
    + intros [H|H]; vm_compute in H; discriminate.
    + left. reflexivity.
  - apply (proj1 (proj2 (credentials_fail_fast (<["AWS_ACCESS_KEY_ID_DEV" := "AKIA"]> ∅)))).
    + left. reflexivity.
    + left. reflexivity.
Defined.

(** ** The S3 bucket lister *)

Section Lister.

Import AwsS3Download.

Variable s3_bucket : string.

(** The entry the lister returns for the object stored under [k]. *)
Let entry (k : string) : BucketItem :=
  {| item_bucket_name := s3_bucket; item_bucket_key := k |}.

Lemma count_pass_prefix (keys : list string) (prefix : string) :
  count_pass (objects_all s3_bucket keys) (Some prefix)
  = Ok (length (List.filter (fun k => startswith k prefix) keys)).
Proof.
  unfold objects_all.
  induction keys as [|k keys IH]; simpl; [reflexivity|].
  rewrite IH. simpl.
  destruct (startswith k prefix); reflexivity.
Qed.

Lemma collect_pass_prefix (keys : list string) (prefix : string) (acc : list BucketItem) :
  collect_pass (objects_all s3_bucket keys) (Some prefix) acc
  = Ok (acc ++ map entry (List.filter (fun k => startswith k prefix) keys)).
Proof.
  unfold objects_all.
  revert acc; induction keys as [|k keys IH]; intros acc; simpl.
  - now rewrite app_nil_r.
  - rewrite IH.
    destruct (startswith k prefix); simpl; [|reflexivity].
    now rewrite <- app_assoc.
Qed.

Lemma listing_prefix (keys : list string) (prefix : string) :
  get_s3_bucket_list keys s3_bucket (Some prefix)
  = Ok {| bucket_size := length (List.filter (fun k => startswith k prefix) keys);
          bucket_items := map entry (List.filter (fun k => startswith k prefix) keys) |}.
Proof.
  unfold get_s3_bucket_list, get_s3_bucket_list_passes. simpl.
  rewrite count_pass_prefix. simpl. rewrite collect_pass_prefix. reflexivity.
Qed.

Lemma filter_all_true {A} (f : A -> bool) (l : list A) :
  (forall x, f x = true) -> List.filter f l = l.
Proof.
  intros H. induction l as [|x l IH]; simpl; [reflexivity|].
  now rewrite H, IH.
Qed.

(** Without a prefix argument the first comparison already fails. *)
Lemma listing_none_nonempty (k : string) (keys : list string) :
  get_s3_bucket_list (k :: keys) s3_bucket None = Raise (TypeError startswith_arg_error).
Proof. reflexivity. Qed.

Lemma listing_none_empty :
  get_s3_bucket_list [] s3_bucket None = Ok {| bucket_size := 0; bucket_items := [] |}.
Proof. reflexivity. Qed.

Lemma listing_size_length (keys : list string) (s3_bucket_key : option string)
    (l : BucketListing) :
  get_s3_bucket_list keys s3_bucket s3_bucket_key = Ok l ->
  bucket_size l = length (bucket_items l).
Proof.
  destruct s3_bucket_key as [prefix|].
  - rewrite listing_prefix. intros [= <-]. simpl. now rewrite length_map.
  - destruct keys as [|k keys].
    + rewrite listing_none_empty. now intros [= <-].
    + rewrite listing_none_nonempty. discriminate.
Qed.

End Lister.

(** C4: for a prefix that is a string the lister returns, in listing
    order, exactly the objects whose key has the prefix as an initial
    segment of characters (compared one by one, so case matters); with the
    empty prefix these are all objects of the bucket. *)
Theorem lister_returns_prefix_matches (keys : list string) (s3_bucket prefix : string) :
  let matching := List.filter (fun k => startswith k prefix) keys in
  let entry k := {| AwsS3Download.item_bucket_name := s3_bucket;
                    AwsS3Download.item_bucket_key := k |} in
  AwsS3Download.get_s3_bucket_list keys s3_bucket (Some prefix)
  = Ok {| AwsS3Download.bucket_size := length matching;
          AwsS3Download.bucket_items := map entry matching |} /\
  (forall k, In k matching <-> In k keys /\ exists rest, k = prefix +:+ rest) /\
  AwsS3Download.get_s3_bucket_list keys s3_bucket (Some "")
  = Ok {| AwsS3Download.bucket_size := length keys;
          AwsS3Download.bucket_items := map entry keys |} /\
  startswith "Data/report.csv" "data/" = false.
Proof.
  intros matching entry. split; [apply listing_prefix|].
  split.
  { intros k. unfold matching. rewrite filter_In, startswith_spec. reflexivity. }
  split; [|reflexivity].
  rewrite listing_prefix.
  rewrite (filter_all_true (fun k => startswith k "") keys startswith_empty).
  reflexivity.
Qed.

Section ListerPasses.

Import AwsS3Download.

Variables (first second : Enumeration) (s3_bucket : string).



End ListerPasses.




(** ** The S3 command line *)

(** C2, evaluated on the code: [--bucket-key] declares no default, so the
    omitted option reaches the lister as [None] and the first key
    comparison raises a [TypeError], in dry-run and in download mode; the
    same run with the empty prefix lists, respectively downloads, the
    object. *)
Theorem omitted_bucket_key_raises :
  let args k d := {| AwsS3Download.bucket := "reports";
                     AwsS3Download.bucket_key := k;
                     AwsS3Download.profile := Some "dev";
                     AwsS3Download.dryrun := d;
                     AwsS3Download.arg_verbose := false |} in
  let run k d := AwsS3Download.main ∅ "/home/user" ["2024/q1.csv"] ∅ (args k d) in
  run None true = Raise (TypeError startswith_arg_error) /\
  run None false = Raise (TypeError startswith_arg_error) /\
  run (Some "") true
  = Ok (AwsS3Download.Printed
          {| AwsS3Download.bucket_size := 1;
             AwsS3Download.bucket_items :=
               [ {| AwsS3Download.item_bucket_name := "reports";
                    AwsS3Download.item_bucket_key := "2024/q1.csv" |} ] |}) /\
  run (Some "") false
  = Ok (AwsS3Download.Downloaded
          (<["/home/user/reports/2024_q1.csv" := AwsS3Download.File "reports" "2024/q1.csv"]>
             (<["/home/user/reports" := AwsS3Download.Directory]> ∅))).
Proof. vm_compute. repeat split. Qed.


(** ** The S3 bucket downloader *)

Section Downloader.

Import AwsS3Download.

Lemma listing_no_match (keys : list string) (s3_bucket prefix : string) :
  (forall k, In k keys -> startswith k prefix = false) ->
  get_s3_bucket_list keys s3_bucket (Some prefix)
  = Ok {| bucket_size := 0; bucket_items := [] |}.
Proof.
  intros H. rewrite listing_prefix.
  assert (List.filter (fun k => startswith k prefix) keys = []) as ->; [|reflexivity].
  induction keys as [|k keys IH]; simpl; [reflexivity|].
  rewrite (H k (or_introl eq_refl)). apply IH. intros k' Hk'. apply H. now right.
Qed.

End Downloader.

(** C6: when the listing has no matching item the download returns the
    file system it was given: no directory created, no file written. *)
Theorem empty_listing_leaves_files_alone (cwd : string) (keys : list string)
    (s3_bucket : string) (s3_bucket_key target_folder : option string)
    (fs : gmap string AwsS3Download.node) (l : AwsS3Download.BucketListing) :
  AwsS3Download.get_s3_bucket_list keys s3_bucket s3_bucket_key = Ok l ->
  AwsS3Download.bucket_size l = 0 ->
  AwsS3Download.get_s3_bucket cwd keys s3_bucket s3_bucket_key target_folder fs = Ok fs.
Proof.
  intros Hl H0. unfold AwsS3Download.get_s3_bucket. rewrite Hl. simpl. now rewrite H0.
Qed.

Lemma empty_listing_leaves_files_alone_witness :
  AwsS3Download.get_s3_bucket "/home/user" ["2024/q1.csv"; "2024/q2.csv"] "reports"
    (Some "2023/") None (<["/home/user/notes.txt" := AwsS3Download.File "other" "notes.txt"]> ∅)
  = Ok (<["/home/user/notes.txt" := AwsS3Download.File "other" "notes.txt"]> ∅).
Proof.
  apply (empty_listing_leaves_files_alone "/home/user" ["2024/q1.csv"; "2024/q2.csv"] "reports"
           (Some "2023/") None _ {| AwsS3Download.bucket_size := 0;
                                    AwsS3Download.bucket_items := [] |});
    reflexivity.
Defined.

Section Flattening.

Import AwsS3Download.

Lemma replace_slash_is_flatten (k : string) : replace k "/" "_" = spec_flatten_key k.
Proof.
  unfold replace. induction k as [|c k IH]; simpl; [reflexivity|].
  destruct (Ascii.eqb c "/"); simpl; now rewrite IH.
Qed.

Lemma flatten_has_no_slash (k : string) :
  Forall (fun c => c <> "/"%char) (list_ascii_of_string (spec_flatten_key k)).
Proof.
  induction k as [|c k IH]; simpl; constructor; [|exact IH].
  destruct (Ascii.eqb_spec c "/"); [discriminate | assumption].
Qed.

Lemma flatten_keeps_length (k : string) :
  String.length (spec_flatten_key k) = String.length k.
Proof. induction k as [|c k IH]; simpl; congruence. Qed.

Lemma append_cancel_l (p a b : string) : p +:+ a = p +:+ b -> a = b.
Proof. induction p as [|c p IH]; simpl; [auto|]. intros [= H]. auto. Qed.

Lemma target_file_flatten (folder k : string) :
  target_file_of folder k = folder +:+ "/" +:+ spec_flatten_key k.
Proof. unfold target_file_of. now rewrite replace_slash_is_flatten. Qed.

Lemma target_file_inj (folder k k' : string) :
  target_file_of folder k = target_file_of folder k' ->
  spec_flatten_key k = spec_flatten_key k'.
Proof.
  rewrite !target_file_flatten. intros H.
  apply append_cancel_l in H. now apply (append_cancel_l "/") in H.
Qed.

Lemma append_never_self (p s : string) : s <> "" -> p +:+ s <> p.
Proof.
  intros Hs. induction p as [|c p IH]; simpl; [exact Hs|].
  intros [= H]. now apply IH.
Qed.

(** A downloaded file never takes the place of the folder itself. *)
Lemma target_file_not_folder (folder k : string) : target_file_of folder k <> folder.
Proof. unfold target_file_of. apply append_never_self. discriminate. Qed.

(** What the download loop leaves at a path: the file of the last item
    written there, or what was there before when no item is written
    there. *)
Lemma download_all_lookup (items : list BucketItem) (folder : string)
    (fs : gmap string node) (p : string) :
  (download_all items folder fs !! p = fs !! p /\
   Forall (fun it => target_file_of folder (item_bucket_key it) <> p) items) \/
  (exists it, In it items /\ target_file_of folder (item_bucket_key it) = p /\
              download_all items folder fs !! p
              = Some (File (item_bucket_name it) (item_bucket_key it))).
Proof.
  revert fs. induction items as [|it items IH]; intros fs.
  - left. split; [reflexivity | constructor].
  - unfold download_all in *. simpl.
    destruct (IH (_get_s3_bucket_item (item_bucket_name it) (item_bucket_key it) folder fs))
      as [[Heq Hall]|(it' & Hin & Htgt & Hlk)].
    + destruct (String.eqb_spec (target_file_of folder (item_bucket_key it)) p) as [Hp|Hp].
      * right. exists it. split; [now left|]. split; [exact Hp|].
        rewrite Heq. unfold _get_s3_bucket_item. rewrite Hp. apply lookup_insert_eq.
      * left. split; [|now constructor].
        rewrite Heq. unfold _get_s3_bucket_item. now apply lookup_insert_ne.
    + right. exists it'. split; [now right|]. auto.
Qed.

End Flattening.

Section DownloadCalls.

Import AwsS3Download.

Context {W : Type}.
Variable os : AwsS3Io.OS W.

(** The loop asks for one download per item, each into the folder under
    the flattened name of its key. *)
Lemma download_loop_calls (items : list BucketItem) (folder : string) (w : W) :
  AwsS3Io.download_loop os items folder w
  = AwsS3Io.run_calls os
      (map (fun it => AwsS3Io.DownloadFile (item_bucket_name it) (item_bucket_key it)
                        (folder +:+ "/" +:+ spec_flatten_key (item_bucket_key it)))
         items) w.
Proof.
  revert w. induction items as [|it items IH]; intros w; [reflexivity|].
  cbn [AwsS3Io.download_loop AwsS3Io.run_calls map].
  unfold AwsS3Io._get_s3_bucket_item. rewrite target_file_flatten.
  destruct (AwsS3Io.perform os _ w) as [w' [e|]]; [reflexivity | apply IH].
Qed.

End DownloadCalls.

(** C7: an object is downloaded to the file [target_folder/<name>], where
    the name is the key with every '/' replaced by '_' and therefore
    holds no '/'; the key a/b/c.txt gives a_b_c.txt.  The folder is the
    one given, or [<current working directory>/<bucket>] when none (or
    the empty string) is given.  Whatever the operating system does, a
    run whose listing returned makes these calls and no others, until one
    raises: [makedirs] on the folder when it does not exist, then one
    download per listed item, in order, to the item's flattened name in
    the folder. *)
Theorem downloader_writes_flattened_name {W : Type} (os : AwsS3Io.OS W)
    (cwd s3_bucket s3_bucket_key target_folder : string) (w : W) :
  let name := AwsS3Download.spec_flatten_key s3_bucket_key in
  replace s3_bucket_key "/" "_" = name /\
  Forall (fun c => c <> "/"%char) (list_ascii_of_string name) /\
  replace "a/b/c.txt" "/" "_" = "a_b_c.txt" /\
  AwsS3Io._get_s3_bucket_item os s3_bucket s3_bucket_key target_folder w
  = AwsS3Io.perform os
      (AwsS3Io.DownloadFile s3_bucket s3_bucket_key (target_folder +:+ "/" +:+ name)) w /\
  AwsS3Download.resolve_target_folder cwd s3_bucket None = cwd +:+ "/" +:+ s3_bucket /\
  AwsS3Download.resolve_target_folder cwd s3_bucket (Some "") = cwd +:+ "/" +:+ s3_bucket /\
  (target_folder <> "" ->
   AwsS3Download.resolve_target_folder cwd s3_bucket (Some target_folder) = target_folder) /\
  (forall first second key folder_arg l,
     AwsS3Download.get_s3_bucket_list_passes first second s3_bucket key = Ok l ->
     AwsS3Io.get_s3_bucket os cwd first second s3_bucket key folder_arg w
     = match AwsS3Download.bucket_size l with
       | O => (w, None)
       | S _ =>
           let folder := AwsS3Download.resolve_target_folder cwd s3_bucket folder_arg in
           AwsS3Io.run_calls os
             ((if AwsS3Io.path_exists os folder w then [] else [AwsS3Io.Makedirs folder]) ++
              map (fun it =>
                     AwsS3Io.DownloadFile (AwsS3Download.item_bucket_name it)
                       (AwsS3Download.item_bucket_key it)
                       (folder +:+ "/" +:+
                        AwsS3Download.spec_flatten_key (AwsS3Download.item_bucket_key it)))
                (AwsS3Download.bucket_items l)) w
       end).
Proof.
  intros name.
  split; [apply replace_slash_is_flatten|].
  split; [apply flatten_has_no_slash|].
  split; [reflexivity|].
  split; [unfold AwsS3Io._get_s3_bucket_item; now rewrite target_file_flatten|].
  split; [reflexivity|].
  split; [reflexivity|].
  split.
  { intros Hf. unfold AwsS3Download.resolve_target_folder.
    apply truthy_true_iff in Hf. now rewrite Hf. }
  intros first second key folder_arg l Hl.
  unfold AwsS3Io.get_s3_bucket. rewrite Hl.
  destruct (AwsS3Download.bucket_size l) as [|n]; [reflexivity|].
  cbn [Nat.ltb Nat.leb]. cbv zeta.
  destruct (AwsS3Io.path_exists os
              (AwsS3Download.resolve_target_folder cwd s3_bucket folder_arg) w);
    cbn [negb app AwsS3Io.run_calls].
  - apply download_loop_calls.
  - destruct (AwsS3Io.perform os _ w) as [w' [e|]]; [reflexivity | apply download_loop_calls].
Qed.

Lemma downloader_writes_flattened_name_witness :
  AwsS3Io.get_s3_bucket (AwsS3Io.recorder (fun _ => false)) "/home/user"
    (AwsS3Download.complete ["a/b/c.txt"; "z.txt"; "a/d.txt"])
    (AwsS3Download.complete ["a/b/c.txt"; "z.txt"; "a/d.txt"])
    "reports" (Some "a/") (Some "/srv/in") []
  = ([ AwsS3Io.Makedirs "/srv/in";
       AwsS3Io.DownloadFile "reports" "a/b/c.txt" "/srv/in/a_b_c.txt";
       AwsS3Io.DownloadFile "reports" "a/d.txt" "/srv/in/a_d.txt" ], None) /\
  AwsS3Download.resolve_target_folder "/home/user" "reports" (Some "/srv/in") = "/srv/in".
Proof.
  split.
  - etransitivity.
    + apply (proj2 (proj2 (proj2 (proj2 (proj2 (proj2 (proj2
               (downloader_writes_flattened_name (AwsS3Io.recorder (fun _ => false))
                  "/home/user" "reports" "a/b/c.txt" "/srv/in" [])))))))
               (AwsS3Download.complete ["a/b/c.txt"; "z.txt"; "a/d.txt"])
               (AwsS3Download.complete ["a/b/c.txt"; "z.txt"; "a/d.txt"])
               (Some "a/") (Some "/srv/in") _ eq_refl).
    + reflexivity.
  - apply (proj1 (proj2 (proj2 (proj2 (proj2 (proj2 (proj2
             (downloader_writes_flattened_name (AwsS3Io.recorder (fun _ => false))
                "/home/user" "reports" "a/b/c.txt" "/srv/in" [])))))))).
    discriminate.
Defined.

Lemma download_loop_on_map_fs (items : list AwsS3Download.BucketItem) (folder : string)
    (fs : gmap string AwsS3Download.node) :
  AwsS3Io.download_loop AwsS3Io.map_fs items folder fs
  = (AwsS3Download.download_all items folder fs, None).
Proof.
  revert fs. induction items as [|it items IH]; intros fs; [reflexivity|].
  cbn [AwsS3Io.download_loop]. unfold AwsS3Io._get_s3_bucket_item.
  cbn [AwsS3Io.perform AwsS3Io.map_fs]. apply IH.
Qed.

(** On the idealised file system and an unchanging bucket the downloader
    against the operating system is the downloader of [AwsS3Download]. *)
Lemma get_s3_bucket_on_map_fs (cwd : string) (keys : list string) (s3_bucket : string)
    (s3_bucket_key target_folder : option string) (fs : gmap string AwsS3Download.node) :
  AwsS3Io.get_s3_bucket AwsS3Io.map_fs cwd (AwsS3Download.complete keys)
    (AwsS3Download.complete keys) s3_bucket s3_bucket_key target_folder fs
  = match AwsS3Download.get_s3_bucket cwd keys s3_bucket s3_bucket_key target_folder fs with
    | Ok fs' => (fs', None)
    | Raise e => (fs, Some e)
    end.
Proof.
  unfold AwsS3Io.get_s3_bucket, AwsS3Download.get_s3_bucket, AwsS3Download.get_s3_bucket_list.
  destruct (AwsS3Download.get_s3_bucket_list_passes _ _ _ _) as [l|e]; [|reflexivity].
  cbn [bind]. destruct (0 <? AwsS3Download.bucket_size l)%nat; [|reflexivity].
  cbn [AwsS3Io.path_exists AwsS3Io.perform AwsS3Io.map_fs].
  destruct (negb (AwsS3Download.path_exists fs
                    (AwsS3Download.resolve_target_folder cwd s3_bucket target_folder)));
    now rewrite download_loop_on_map_fs.
Qed.

(** ** The Cognito user lookup *)

Section Lookup.

Import AwsCognitoUser.

Context {Response : Type}.
Variable list_users : list ListUsersRequest -> ListUsersRequest -> Response.
Variable self : t.

Lemma log_keeps_calls (message : string) (w : World) : calls (_log self message w) = calls w.
Proof. unfold _log. now destruct (verbose self). Qed.

(** A lookup adds one request to those already sent. *)
Lemma lookup_calls (username : string) (w : World) :
  calls (snd (get_user_details list_users self username w))
  = calls w ++ [{| UserPoolId := user_pool_id self; Filter := filter_expression username |}].
Proof. unfold get_user_details. cbn [snd calls]. now rewrite log_keeps_calls. Qed.

Lemma lookup_response (username : string) (w : World) :
  fst (get_user_details list_users self username w)
  = list_users (calls w)
      {| UserPoolId := user_pool_id self; Filter := filter_expression username |}.
Proof. unfold get_user_details. cbn [fst]. now rewrite log_keeps_calls. Qed.

End Lookup.

(** C9: one lookup sends exactly one request, whose filter is
    [username = ] followed by the username between double quotes; a second
    lookup for the same username sends the same request again; and the
    filter is the same whatever the instance, the logger state, the
    requests sent before and the answers of the directory. *)
Theorem lookup_filter_depends_on_username_only {Response Response' : Type}
    (list_users : list AwsCognitoUser.ListUsersRequest ->
                  AwsCognitoUser.ListUsersRequest -> Response)
    (list_users' : list AwsCognitoUser.ListUsersRequest ->
                   AwsCognitoUser.ListUsersRequest -> Response')
    (self self' : AwsCognitoUser.t) (username : string) (w w' : AwsCognitoUser.World) :
  let filter := "username = " +:+ String (ascii_of_nat 34)
                  (username +:+ String (ascii_of_nat 34) EmptyString) in
  let request := {| AwsCognitoUser.UserPoolId := AwsCognitoUser.user_pool_id self;
                    AwsCognitoUser.Filter := filter |} in
  let first := AwsCognitoUser.get_user_details list_users self username w in
  let second := AwsCognitoUser.get_user_details list_users self username (snd first) in
  let other := AwsCognitoUser.get_user_details list_users' self' username w' in
  AwsCognitoUser.calls (snd first) = AwsCognitoUser.calls w ++ [request] /\
  AwsCognitoUser.calls (snd second) = AwsCognitoUser.calls w ++ [request; request] /\
  fst first = list_users (AwsCognitoUser.calls w) request /\
  AwsCognitoUser.calls (snd other)
  = AwsCognitoUser.calls w' ++
      [{| AwsCognitoUser.UserPoolId := AwsCognitoUser.user_pool_id self';
          AwsCognitoUser.Filter := filter |}].
Proof.
  cbv zeta. rewrite !lookup_calls, lookup_response, <- app_assoc.
  repeat split.
Qed.

(** ** The CSV consolidator *)

Section Consolidator.

Import AwsDynamodb.



Lemma dict_zip_dom (fn row : list string) (d : gmap (option string) cell) (s : gset (option string)) :
  dom d ⊆ s -> list_to_set (Some <$> fn) ⊆ s ->
  dom (fold_left (fun d kv => <[Some (fst kv) := Str (snd kv)]> d) (combine fn row) d) ⊆ s.
Proof.
  revert row d. induction fn as [|k fn IH]; intros row d Hd Hfn; simpl; [exact Hd|].
  destruct row as [|v row]; simpl; [exact Hd|].
  apply IH.
  - rewrite dom_insert. set_solver.
  - set_solver.
Qed.

Lemma restval_dom (keys : list string) (d : gmap (option string) cell) (s : gset (option string)) :
  dom d ⊆ s -> list_to_set (Some <$> keys) ⊆ s ->
  dom (fold_left (fun d key => <[Some key := NoneVal]> d) keys d) ⊆ s.
Proof.
  revert d. induction keys as [|k keys IH]; intros d Hd Hk; simpl; [exact Hd|].
  apply IH.
  - rewrite dom_insert. set_solver.
  - set_solver.
Qed.

(** A row no longer than the header only has keys of the header. *)
Lemma read_row_dom (fn row : list string) :
  length row <= length fn ->
  dom (read_row fn row) ⊆ list_to_set (Some <$> fn).
Proof.
  intros Hlen. unfold read_row.
  destruct (length fn <? length row)%nat eqn:Hlt; [apply Nat.ltb_lt in Hlt; lia|].
  assert (Hz : dom (dict_zip fn row) ⊆ list_to_set (Some <$> fn)).
  { unfold dict_zip. apply dict_zip_dom; [set_solver | reflexivity]. }
  destruct (length row <? length fn)%nat; [|exact Hz].
  apply restval_dom; [exact Hz|].
  intros x Hx. apply elem_of_list_to_set in Hx. apply elem_of_list_to_set.
  apply list_elem_of_fmap in Hx as (k & -> & Hk). apply list_elem_of_fmap.
  exists k. split; [reflexivity|]. apply list_elem_of_In.
  apply list_elem_of_In in Hk. revert Hk. clear.
  generalize (length row). intros n. revert fn.
  induction n as [|n IH]; intros fn; simpl.
  - now rewrite drop_0.
  - destruct fn as [|a fn]; simpl; [auto|]. intros H. right. now apply IH.
Qed.


Lemma dict_zip_other (c : string) (fn row : list string) (d : gmap (option string) cell) :
  c ∉ fn ->
  fold_left (fun d kv => <[Some (fst kv) := Str (snd kv)]> d) (combine fn row) d !! Some c
  = d !! Some c.
Proof.
  revert row d. induction fn as [|k fn IH]; intros row d Hc; simpl; [reflexivity|].
  destruct row as [|v row]; simpl; [reflexivity|].
  apply not_elem_of_cons in Hc as [Hne Hc].
  rewrite (IH _ _ Hc). apply lookup_insert_ne. congruence.
Qed.

Lemma dict_zip_lookup (c v : string) (fn row : list string) (d : gmap (option string) cell)
    (i : nat) :
  NoDup fn -> fn !! i = Some c -> row !! i = Some v ->
  fold_left (fun d kv => <[Some (fst kv) := Str (snd kv)]> d) (combine fn row) d !! Some c
  = Some (Str v).
Proof.
  revert row d i. induction fn as [|k fn IH]; intros row d i Hnd Hfn Hrow; [discriminate|].
  destruct row as [|v0 row]; [discriminate|].
  apply NoDup_cons in Hnd as [Hk Hnd]. simpl.
  destruct i as [|i]; simpl in Hfn, Hrow.
  - injection Hfn as ->. injection Hrow as ->.
    rewrite (dict_zip_other _ _ _ _ Hk). apply lookup_insert_eq.
  - now apply (IH _ _ i).
Qed.

Lemma restval_other (c : string) (keys : list string) (d : gmap (option string) cell) :
  c ∉ keys ->
  fold_left (fun d key => <[Some key := NoneVal]> d) keys d !! Some c = d !! Some c.
Proof.
  revert d. induction keys as [|k keys IH]; intros d Hc; simpl; [reflexivity|].
  apply not_elem_of_cons in Hc as [Hne Hc].
  rewrite (IH _ Hc). apply lookup_insert_ne. congruence.
Qed.

(** With distinct field names, a record holds each field of its line
    under the name of the field's column. *)
Lemma read_row_lookup (fn row : list string) (i : nat) (c v : string) :
  NoDup fn -> fn !! i = Some c -> row !! i = Some v -> length row <= length fn ->
  read_row fn row !! Some c = Some (Str v).
Proof.
  intros Hnd Hfn Hrow Hlen. unfold read_row.
  destruct (length fn <? length row)%nat eqn:Hlt; [apply Nat.ltb_lt in Hlt; lia|].
  assert (Hz : dict_zip fn row !! Some c = Some (Str v))
    by (unfold dict_zip; now apply (dict_zip_lookup c v fn row ∅ i)).
  destruct (length row <? length fn)%nat; [|exact Hz].
  rewrite restval_other; [exact Hz|].
  intros Hin. apply list_elem_of_lookup in Hin as [j Hj].
  rewrite lookup_drop in Hj.
  pose proof (NoDup_lookup _ _ _ _ Hnd Hfn Hj) as Hij.
  apply lookup_lt_Some in Hrow. lia.
Qed.


End Consolidator.

Section ConsolidatorRows.

Import AwsDynamodb.

Lemma well_formed_nonempty (files : list (list (list string))) :
  Forall well_formed files -> Forall (fun file => file <> []) files.
Proof.
  intros H. eapply Forall_impl; [exact H|].
  intros [|fn lines]; simpl; [tauto | discriminate].
Qed.





End ConsolidatorRows.





(** Two files with different columns: each row keeps its place, a column
    the row's file lacks is left empty, a field the line lacks is [None].
    The column order is the one [elements] happens to give. *)
Example consolidate_two_files :
  AwsDynamodb.consolidate
    [ [ ["id"; "name"]; ["1"; "ann"]; ["2"] ];
      [ ["id"; "amount"]; ["3"; "7"] ] ]
  = Ok {| AwsDynamodb.out_header := ["id"; "amount"; "name"];
          AwsDynamodb.out_rows :=
            [ [AwsDynamodb.Str "1"; AwsDynamodb.Str ""; AwsDynamodb.Str "ann"];
              [AwsDynamodb.Str "2"; AwsDynamodb.Str ""; AwsDynamodb.NoneVal];
              [AwsDynamodb.Str "3"; AwsDynamodb.Str "7"; AwsDynamodb.Str ""] ] |}.
Proof. vm_compute. reflexivity. Qed.


(** C1, evaluated on the code: [cleanse_header] is never applied, so the
    written header keeps the type suffixes; applying it to that header
    would give the set {id, name, amount}. *)
Theorem merged_header_keeps_suffixes :
  exists out,
    AwsDynamodb.consolidate
      [ [ ["id (S)"; "name"]; ["1"; "ann"] ];
        [ ["id (S)"; "amount (N)"]; ["2"; "7"] ] ] = Ok out /\
    (forall c, c ∈ AwsDynamodb.out_header out <->
               c = "id (S)" \/ c = "name" \/ c = "amount (N)") /\
    ("id" ∉ AwsDynamodb.out_header out) /\
    ("amount" ∉ AwsDynamodb.out_header out) /\
    (forall c, c ∈ AwsDynamodb.cleanse_header (list_to_set (AwsDynamodb.out_header out)) <->
               c = "id" \/ c = "name" \/ c = "amount").
Proof.
  eexists. split; [vm_compute; reflexivity|]. cbn [AwsDynamodb.out_header].
  assert (Hmem : forall c : string, c ∈ ["id (S)"; "amount (N)"; "name"] <->
                   c = "id (S)" \/ c = "name" \/ c = "amount (N)").
  { intros c. rewrite !elem_of_cons, elem_of_nil. tauto. }
  split; [exact Hmem|].
  split; [rewrite Hmem; intros [H|[H|H]]; discriminate|].
  split; [rewrite Hmem; intros [H|[H|H]]; discriminate|].
  intros c. unfold AwsDynamodb.cleanse_header. rewrite elem_of_map. split.
  - intros (x & -> & Hx). apply elem_of_list_to_set, Hmem in Hx.
    destruct Hx as [-> | [-> | ->] ]; vm_compute; auto.
  - intros [-> | [-> | ->] ].
    + exists "id (S)". split; [reflexivity|]. apply elem_of_list_to_set, Hmem. auto.
    + exists "name". split; [reflexivity|]. apply elem_of_list_to_set, Hmem. auto.
    + exists "amount (N)". split; [reflexivity|]. apply elem_of_list_to_set, Hmem. auto.
Qed.

(** * Further properties of the code *)

(** ** Credentials and client construction *)

(** X1: when the region variable in force, the access key and the secret
    key are all set and non-empty, both tools return exactly these three
    values, and the client factories build a handle from them. *)
Theorem credentials_returned_unmodified (environ : gmap string string) (r ak sk : string) :
  (environ !! "AWS_DEFAULT_REGION" = Some r \/
   (environ !! "AWS_DEFAULT_REGION" = None /\ environ !! "AWS_REGION" = Some r)) ->
  environ !! "AWS_ACCESS_KEY_ID_DEV" = Some ak ->
  environ !! "AWS_SECRET_ACCESS_KEY_DEV" = Some sk ->
  r <> "" -> ak <> "" -> sk <> "" ->
  let c := {| aws_access_key_id := ak; aws_secret_access_key := sk; aws_region_name := r |} in
  AwsS3Download._get_aws_credentials environ = Ok c /\
  AwsClientService._get_aws_credentials environ = Ok c /\
  AwsS3Download._get_s3_client environ None = Ok (FromKeys "s3" c) /\
  (forall svc, AwsClientService.get_aws_client environ None svc = Ok (FromKeys svc c)).
Proof.
  intros Hr Ha Hs Hr0 Ha0 Hs0 c.
  assert (Hreg : region_from_env environ = r).
  { unfold region_from_env. destruct Hr as [Hp|[Hp Hq]].
    - now apply getenv_present.
    - rewrite (getenv_absent _ _ _ Hp). now apply getenv_present. }
  assert (Hc : AwsS3Download._get_aws_credentials environ = Ok c).
  { rewrite credentials_cases, Hreg.
    rewrite (getenv_present _ _ _ _ Ha), (getenv_present _ _ _ _ Hs).
    apply truthy_true_iff in Hr0, Ha0, Hs0. now rewrite Hr0, Ha0, Hs0. }
  split; [exact Hc|]. split; [exact Hc|].
  unfold AwsS3Download._get_s3_client, AwsClientService.get_aws_client.
  change (AwsClientService._get_aws_credentials environ)
    with (AwsS3Download._get_aws_credentials environ).
  rewrite Hc. simpl. auto.
Qed.

Lemma credentials_returned_unmodified_witness :
  AwsClientService._get_aws_credentials
    (<["AWS_REGION" := "us-east-1"]>
       (<["AWS_ACCESS_KEY_ID_DEV" := "AKIA"]>
          (<["AWS_SECRET_ACCESS_KEY_DEV" := "secret"]> ∅)))
  = Ok {| aws_access_key_id := "AKIA"; aws_secret_access_key := "secret";
          aws_region_name := "us-east-1" |}.
Proof.
  apply (credentials_returned_unmodified
           (<["AWS_REGION" := "us-east-1"]>
              (<["AWS_ACCESS_KEY_ID_DEV" := "AKIA"]>
                 (<["AWS_SECRET_ACCESS_KEY_DEV" := "secret"]> ∅)))
           "us-east-1" "AKIA" "secret").
  - right. split; reflexivity.
  - reflexivity.
  - reflexivity.
  - discriminate.
  - discriminate.
  - discriminate.
Defined.



(** ** The download loop *)

Section DownloadLoop.

Import AwsS3Download.

Variable folder : string.

Lemma download_all_app (xs ys : list BucketItem) (fs : gmap string node) :
  download_all (xs ++ ys) folder fs = download_all ys folder (download_all xs folder fs).
Proof. unfold download_all. apply fold_left_app. Qed.

(** A path no item is written to keeps what it held. *)
Lemma download_all_untouched (items : list BucketItem) (fs : gmap string node) (p : string) :
  Forall (fun it => target_file_of folder (item_bucket_key it) <> p) items ->
  download_all items folder fs !! p = fs !! p.
Proof.
  revert fs. induction items as [|it items IH]; intros fs Hall; [reflexivity|].
  inversion Hall as [|? ? Hit Hrest]; subst.
  unfold download_all in *. simpl. rewrite (IH _ Hrest).
  unfold _get_s3_bucket_item. now apply lookup_insert_ne.
Qed.

Lemma download_all_folder (items : list BucketItem) (fs : gmap string node) :
  download_all items folder fs !! folder = fs !! folder.
Proof.
  apply download_all_untouched, List.Forall_forall.
  intros it _. apply target_file_not_folder.
Qed.

(** Where some item is written, the loop's result does not depend on
    what was there before. *)
Lemma download_all_overwrites (items : list BucketItem) (fs fs' : gmap string node)
    (p : string) :
  Exists (fun it => target_file_of folder (item_bucket_key it) = p) items ->
  download_all items folder fs !! p = download_all items folder fs' !! p.
Proof.
  revert fs fs'. induction items as [|it items IH]; intros fs fs' Hex.
  - inversion Hex.
  - change (download_all (it :: items) folder fs)
      with (download_all items folder
              (_get_s3_bucket_item (item_bucket_name it) (item_bucket_key it) folder fs)).
    change (download_all (it :: items) folder fs')
      with (download_all items folder
              (_get_s3_bucket_item (item_bucket_name it) (item_bucket_key it) folder fs')).
    destruct (download_all_lookup items folder
                (_get_s3_bucket_item (item_bucket_name it) (item_bucket_key it) folder fs) p)
      as [[_ Hall]|(it' & Hin & Htgt & _)].
    + rewrite !download_all_untouched by exact Hall.
      inversion Hex as [? ? Hp|? ? Hlater]; subst.
      * unfold _get_s3_bucket_item. now rewrite !lookup_insert_eq.
      * exfalso. apply List.Exists_exists in Hlater as (x & Hx & Hxp).
        rewrite List.Forall_forall in Hall. now apply (Hall x Hx).
    + apply IH. apply List.Exists_exists. eauto.
Qed.

(** Running the loop again over its own result changes nothing. *)
Lemma download_all_idempotent (items : list BucketItem) (fs : gmap string node) :
  download_all items folder (download_all items folder fs) = download_all items folder fs.
Proof.
  apply map_eq. intros p.
  destruct (download_all_lookup items folder fs p) as [[_ Hall]|(it & Hin & Htgt & _)].
  - now rewrite download_all_untouched.
  - apply download_all_overwrites, List.Exists_exists. eauto.
Qed.

End DownloadLoop.

Section DownloadRun.

Import AwsS3Download.

Variables (cwd s3_bucket prefix : string) (target_folder : option string).

Let folder : string := resolve_target_folder cwd s3_bucket target_folder.

(** The file system a download starts writing into: the one given, with
    the target folder added when nothing exists at its path. *)
Lemma get_s3_bucket_prefix (keys : list string) (fs : gmap string node) :
  get_s3_bucket cwd keys s3_bucket (Some prefix) target_folder fs
  = Ok (match List.filter (fun k => startswith k prefix) keys with
        | [] => fs
        | matching =>
            download_all
              (map (fun k => {| item_bucket_name := s3_bucket; item_bucket_key := k |}) matching)
              folder
              (match fs !! folder with Some _ => fs | None => <[folder := Directory]> fs end)
        end).
Proof.
  unfold get_s3_bucket. rewrite listing_prefix.
  cbn [bind bucket_size bucket_items].
  destruct (List.filter (fun k => startswith k prefix) keys) as [|k ks]; [reflexivity|].
  cbn [length Nat.ltb Nat.leb]. unfold path_exists, makedirs. fold folder.
  destruct (fs !! folder); reflexivity.
Qed.

Lemma get_s3_bucket_matching (keys : list string) (fs : gmap string node) :
  List.filter (fun k => startswith k prefix) keys <> [] ->
  get_s3_bucket cwd keys s3_bucket (Some prefix) target_folder fs
  = Ok (download_all
          (map (fun k => {| item_bucket_name := s3_bucket; item_bucket_key := k |})
             (List.filter (fun k => startswith k prefix) keys))
          folder
          (match fs !! folder with Some _ => fs | None => <[folder := Directory]> fs end)).
Proof.
  intros Hne. rewrite get_s3_bucket_prefix.
  destruct (List.filter (fun k => startswith k prefix) keys); [contradiction | reflexivity].
Qed.

End DownloadRun.

Lemma ok_inj {A : Type} (a b : A) : Ok a = Ok b -> a = b.
Proof. now intros [= ->]. Qed.

(** X4: a download with at least one matching object leaves a directory
    at the target folder when nothing existed at that path, and leaves
    whatever existed there otherwise; no object's file can take the
    folder's place. *)
Theorem download_creates_target_folder (cwd s3_bucket prefix : string)
    (target_folder : option string) (keys : list string)
    (fs fs' : gmap string AwsS3Download.node) (k : string) :
  In k keys -> startswith k prefix = true ->
  AwsS3Download.get_s3_bucket cwd keys s3_bucket (Some prefix) target_folder fs = Ok fs' ->
  fs' !! AwsS3Download.resolve_target_folder cwd s3_bucket target_folder
  = match fs !! AwsS3Download.resolve_target_folder cwd s3_bucket target_folder with
    | Some n => Some n
    | None => Some AwsS3Download.Directory
    end.
Proof.
  intros Hk Hpre. rewrite get_s3_bucket_prefix.
  assert (Hin : In k (List.filter (fun k => startswith k prefix) keys))
    by (apply filter_In; auto).
  destruct (List.filter (fun k => startswith k prefix) keys) as [|k0 ks]; [destruct Hin|].
  intros <-%ok_inj. rewrite download_all_folder.
  destruct (fs !! AwsS3Download.resolve_target_folder cwd s3_bucket target_folder) eqn:Hf.
  - exact Hf.
  - apply lookup_insert_eq.
Qed.

Lemma download_creates_target_folder_witness :
  exists fs',
    AwsS3Download.get_s3_bucket "/home/user" ["2024/q1.csv"] "reports" (Some "2024/") None ∅
    = Ok fs' /\
    fs' !! "/home/user/reports" = Some AwsS3Download.Directory.
Proof.
  eexists. split; [reflexivity|].
  etransitivity.
  - apply (download_creates_target_folder "/home/user" "reports" "2024/" None ["2024/q1.csv"]
             ∅ _ "2024/q1.csv").
    + left. reflexivity.
    + reflexivity.
    + reflexivity.
  - reflexivity.
Defined.

(** X6: flattening is lossy on disk.  When several matching keys flatten
    to one name, the file under that name holds the object listed last
    among them: a matching key after which no matching key with the same
    flattened name is listed is the one found on disk. *)
Theorem download_last_key_wins (cwd s3_bucket prefix : string)
    (target_folder : option string) (before after : list string) (k : string)
    (fs fs' : gmap string AwsS3Download.node) :
  startswith k prefix = true ->
  (forall k', In k' after -> startswith k' prefix = true ->
     AwsS3Download.spec_flatten_key k' <> AwsS3Download.spec_flatten_key k) ->
  AwsS3Download.get_s3_bucket cwd (before ++ k :: after) s3_bucket (Some prefix)
    target_folder fs = Ok fs' ->
  fs' !! (AwsS3Download.resolve_target_folder cwd s3_bucket target_folder
          +:+ "/" +:+ AwsS3Download.spec_flatten_key k)
  = Some (AwsS3Download.File s3_bucket k).
Proof.
  intros Hpre Hafter. rewrite get_s3_bucket_matching.
  2:{ rewrite List.filter_app. simpl. rewrite Hpre.
      now destruct (List.filter (fun k => startswith k prefix) before). }
  rewrite List.filter_app. simpl. rewrite Hpre. intros <-%ok_inj.
  rewrite map_app, download_all_app. simpl.
  change (AwsS3Download.download_all (?it :: ?l) ?f ?m)
    with (AwsS3Download.download_all l f
            (AwsS3Download._get_s3_bucket_item (AwsS3Download.item_bucket_name it)
               (AwsS3Download.item_bucket_key it) f m)).
  rewrite <- target_file_flatten, download_all_untouched.
  - unfold AwsS3Download._get_s3_bucket_item. simpl. apply lookup_insert_eq.
  - apply List.Forall_forall. intros it Hit.
    apply in_map_iff in Hit as (k' & <- & Hk'). apply filter_In in Hk' as [Hin Hp'].
    simpl. intros Htgt. apply target_file_inj in Htgt. now apply (Hafter k' Hin Hp').
Qed.

Lemma download_last_key_wins_witness :
  exists fs',
    AwsS3Download.get_s3_bucket "/home/user" ["a/b_c.txt"; "a_b/c.txt"] "reports" (Some "")
      None ∅ = Ok fs' /\
    AwsS3Download.spec_flatten_key "a/b_c.txt" = AwsS3Download.spec_flatten_key "a_b/c.txt" /\
    fs' !! "/home/user/reports/a_b_c.txt" = Some (AwsS3Download.File "reports" "a_b/c.txt").
Proof.
  eexists. split; [reflexivity|]. split; [reflexivity|].
  apply (download_last_key_wins "/home/user" "reports" "" None ["a/b_c.txt"] [] "a_b/c.txt" ∅ _
           eq_refl).
  - intros k' [].
  - reflexivity.
Defined.

(** X7: running the download again over the same bucket content and the
    file system the first run left gives that file system back. *)
Theorem download_is_idempotent (cwd s3_bucket : string) (s3_bucket_key target_folder : option string)
    (keys : list string) (fs fs' : gmap string AwsS3Download.node) :
  AwsS3Download.get_s3_bucket cwd keys s3_bucket s3_bucket_key target_folder fs = Ok fs' ->
  AwsS3Download.get_s3_bucket cwd keys s3_bucket s3_bucket_key target_folder fs' = Ok fs'.
Proof.
  destruct s3_bucket_key as [prefix|].
  - rewrite !get_s3_bucket_prefix. intros <-%ok_inj. f_equal.
    destruct (List.filter (fun k => startswith k prefix) keys) as [|k0 ks]; [reflexivity|].
    rewrite download_all_folder.
    set (folder := AwsS3Download.resolve_target_folder cwd s3_bucket target_folder).
    assert (Hex : exists n,
               (match fs !! folder with
                | Some _ => fs
                | None => <[folder := AwsS3Download.Directory]> fs
                end) !! folder = Some n).
    { destruct (fs !! folder) eqn:Hf; [eauto|].
      exists AwsS3Download.Directory. apply lookup_insert_eq. }
    destruct Hex as [n ->]. apply download_all_idempotent.
  - destruct keys as [|k keys].
    + unfold AwsS3Download.get_s3_bucket. simpl. now intros [= <-].
    + unfold AwsS3Download.get_s3_bucket. rewrite listing_none_nonempty. discriminate.
Qed.

Lemma download_is_idempotent_witness :
  exists fs',
    AwsS3Download.get_s3_bucket "/home/user" ["a/b_c.txt"; "a_b/c.txt"; "z"] "reports"
      (Some "a") None ∅ = Ok fs' /\
    AwsS3Download.get_s3_bucket "/home/user" ["a/b_c.txt"; "a_b/c.txt"; "z"] "reports"
      (Some "a") None fs' = Ok fs'.
Proof.
  eexists. split; [reflexivity|].
  apply (download_is_idempotent "/home/user" "reports" (Some "a") None
           ["a/b_c.txt"; "a_b/c.txt"; "z"] ∅ _ eq_refl).
Defined.

(** ** Prefixes and flattened names *)

Lemma string_append_assoc (a b c : string) : (a +:+ b) +:+ c = a +:+ (b +:+ c).
Proof.
  induction a as [|x a IH]; [reflexivity|].
  change (String x ((a +:+ b) +:+ c) = String x (a +:+ (b +:+ c))). now rewrite IH.
Qed.

Lemma startswith_trans (k p' p : string) :
  startswith k p' = true -> startswith p' p = true -> startswith k p = true.
Proof.
  rewrite !startswith_spec. intros [r ->] [r' ->].
  exists (r' +:+ r). apply string_append_assoc.
Qed.

Lemma filter_filter_narrower {A : Type} (f g : A -> bool) (l : list A) :
  (forall x, g x = true -> f x = true) ->
  List.filter g (List.filter f l) = List.filter g l.
Proof.
  intros Hgf. induction l as [|x l IH]; simpl; [reflexivity|].
  destruct (f x) eqn:Hf; simpl.
  - now rewrite IH.
  - destruct (g x) eqn:Hg; [|exact IH]. apply Hgf in Hg. congruence.
Qed.

Lemma filter_map_commute {A B : Type} (h : A -> B) (g : B -> bool) (l : list A) :
  List.filter g (map h l) = map h (List.filter (fun x => g (h x)) l).
Proof.
  induction l as [|x l IH]; simpl; [reflexivity|].
  destruct (g (h x)); simpl; now rewrite IH.
Qed.

Lemma filter_length_le {A : Type} (f : A -> bool) (l : list A) :
  length (List.filter f l) <= length l.
Proof. induction l as [|x l IH]; simpl; [lia|]. destruct (f x); simpl; lia. Qed.

(** X8: a longer prefix only narrows a listing: the objects listed for a
    prefix that extends another are those of the other prefix's listing
    whose key has the longer prefix, in the same order, so there are no
    more of them. *)
Theorem lister_longer_prefix_narrows (keys : list string) (s3_bucket p p' : string)
    (l l' : AwsS3Download.BucketListing) :
  startswith p' p = true ->
  AwsS3Download.get_s3_bucket_list keys s3_bucket (Some p) = Ok l ->
  AwsS3Download.get_s3_bucket_list keys s3_bucket (Some p') = Ok l' ->
  AwsS3Download.bucket_items l'
  = List.filter (fun it => startswith (AwsS3Download.item_bucket_key it) p')
      (AwsS3Download.bucket_items l) /\
  AwsS3Download.bucket_size l' <= AwsS3Download.bucket_size l.
Proof.
  intros Hpp. rewrite !listing_prefix. intros <-%ok_inj <-%ok_inj. simpl.
  rewrite filter_map_commute. simpl.
  assert (Hnarrow : List.filter (fun k => startswith k p')
                      (List.filter (fun k => startswith k p) keys)
                    = List.filter (fun k => startswith k p') keys).
  { apply filter_filter_narrower. intros k Hk. now apply (startswith_trans k p' p). }
  rewrite Hnarrow. split; [reflexivity|].
  rewrite <- Hnarrow. apply filter_length_le.
Qed.

Lemma lister_longer_prefix_narrows_witness :
  exists l l',
    AwsS3Download.get_s3_bucket_list ["2024/q1.csv"; "2023/q4.csv"; "2024/q2.csv"; "x"]
      "reports" (Some "202") = Ok l /\
    AwsS3Download.get_s3_bucket_list ["2024/q1.csv"; "2023/q4.csv"; "2024/q2.csv"; "x"]
      "reports" (Some "2024/") = Ok l' /\
    AwsS3Download.bucket_size l' <= AwsS3Download.bucket_size l.
Proof.
  eexists. eexists. split; [reflexivity|]. split; [reflexivity|].
  apply (proj2 (lister_longer_prefix_narrows
                  ["2024/q1.csv"; "2023/q4.csv"; "2024/q2.csv"; "x"] "reports" "202" "2024/"
                  _ _ eq_refl eq_refl eq_refl)).
Defined.

Lemma flatten_fixed_without_slash (k : string) :
  Forall (fun c => c <> "/"%char) (list_ascii_of_string k) ->
  AwsS3Download.spec_flatten_key k = k.
Proof.
  induction k as [|c k IH]; simpl; [reflexivity|].
  intros H. inversion H as [|? ? Hc Hk]; subst.
  destruct (Ascii.eqb_spec c "/"); [contradiction|]. now rewrite IH.
Qed.

(** X9: replacing '/' by '_' keeps the length of a key, leaves a key
    without '/' as it is, and applied twice does no more than once. *)
Theorem replace_slash_shape (k : string) :
  String.length (replace k "/" "_") = String.length k /\
  (Forall (fun c => c <> "/"%char) (list_ascii_of_string k) -> replace k "/" "_" = k) /\
  replace (replace k "/" "_") "/" "_" = replace k "/" "_".
Proof.
  rewrite !replace_slash_is_flatten. split; [apply flatten_keeps_length|].
  split; [apply flatten_fixed_without_slash|].
  apply flatten_fixed_without_slash, flatten_has_no_slash.
Qed.

Lemma replace_slash_shape_witness : replace "report-2024.csv" "/" "_" = "report-2024.csv".
Proof.
  apply (proj1 (proj2 (replace_slash_shape "report-2024.csv"))).
  repeat constructor; discriminate.
Defined.

(** ** The Cognito tool *)

Lemma append_char_cancel_r (a : ascii) (u u' : string) :
  u +:+ String a "" = u' +:+ String a "" -> u = u'.
Proof.
  revert u'. induction u as [|c u IH]; intros [|c' u']; simpl.
  - reflexivity.
  - intros [= _ H]. destruct u'; discriminate.
  - intros [= _ H]. destruct u; discriminate.
  - intros [= -> H]. f_equal. now apply IH.
Qed.

(** X10: the filter expression determines the username: lookups for two
    different usernames never send the same filter. *)
Theorem filter_expression_injective (u u' : string) :
  u <> u' -> AwsCognitoUser.filter_expression u <> AwsCognitoUser.filter_expression u'.
Proof.
  unfold AwsCognitoUser.filter_expression, AwsCognitoUser.dquote. intros Hne H.
  apply (append_cancel_l "username = ") in H.
  apply (append_cancel_l (String (ascii_of_nat 34) "")) in H.
  now apply append_char_cancel_r in H.
Qed.

Lemma filter_expression_injective_witness :
  String.length (AwsCognitoUser.filter_expression "bob") = 16 /\
  AwsCognitoUser.filter_expression "bob" <> AwsCognitoUser.filter_expression "bobby".
Proof.
  split; [reflexivity|].
  apply (filter_expression_injective "bob" "bobby"). discriminate.
Defined.

Lemma credentials_error_kind (environ : gmap string string) (e : exn) :
  AwsClientService._get_aws_credentials environ = Raise e ->
  exists msg, e = AwsConfigException msg.
Proof.
  rewrite credentials_agree, credentials_cases. intros He.
  repeat match type of He with
         | (if ?b then _ else _) = _ => destruct b
         end; inversion He; eauto.
Qed.

(** X11: one run of the Cognito tool ends in one of three ways: in the
    configuration error of the credential check, or in the error the SDK
    raises while the client is built, and then no request was sent and
    nothing was logged; or exactly one request was sent, for the user
    pool and the username of the command line, the outcome is the
    directory's answer to it or the error that request raised, and one
    line was logged exactly when [--verbose] is given. *)
Theorem cognito_main_sends_one_request {Response : Type}
    (sdk : AwsCognitoCli.Sdk Response)
    (environ : gmap string string) (args : AwsCognitoCli.Args) (w : AwsCognitoUser.World) :
  let request := {| AwsCognitoUser.UserPoolId := AwsCognitoCli.cognito_userpool args;
                    AwsCognitoUser.Filter :=
                      AwsCognitoUser.filter_expression (AwsCognitoCli.username args) |} in
  let client := AwsClientService.get_aws_client environ (AwsCognitoCli.profile args)
                  AwsCognitoUser.AWS_SERVICE in
  let run := AwsCognitoCli.main sdk environ args w in
  (exists msg, client = Raise (AwsConfigException msg) /\
               run = (Raise (AwsConfigException msg), w)) \/
  (exists c e, client = Ok c /\ AwsCognitoCli.connect sdk c = Some e /\
               run = (Raise e, w)) \/
  (exists c, client = Ok c /\ AwsCognitoCli.connect sdk c = None /\
     fst run = AwsCognitoCli.list_users sdk (AwsCognitoUser.calls w) request /\
     AwsCognitoUser.calls (snd run) = AwsCognitoUser.calls w ++ [request] /\
     AwsCognitoUser.log (snd run)
     = if AwsCognitoCli.arg_verbose args
       then AwsCognitoUser.log w ++
            ["Get user informations from cognito for user <"
             +:+ AwsCognitoCli.username args +:+ ">"]
       else AwsCognitoUser.log w).
Proof.
  intros request client run. subst run client. unfold AwsCognitoCli.main.
  destruct (AwsClientService.get_aws_client environ (AwsCognitoCli.profile args)
              AwsCognitoUser.AWS_SERVICE) as [c|e] eqn:Hclient.
  - right. destruct (AwsCognitoCli.connect sdk c) as [e|] eqn:Hconnect.
    + left. exists c, e. auto.
    + right. exists c. split; [reflexivity|]. split; [exact Hconnect|].
      rewrite lookup_response, lookup_calls. cbn [AwsCognitoUser.user_pool_id].
      split; [reflexivity|]. split; [reflexivity|].
      unfold AwsCognitoUser.get_user_details, AwsCognitoUser._log.
      cbn [snd AwsCognitoUser.log AwsCognitoUser.verbose].
      now destruct (AwsCognitoCli.arg_verbose args).
  - left. unfold AwsClientService.get_aws_client in Hclient.
    assert (Hcred : AwsClientService._get_aws_credentials environ = Raise e).
    { destruct (AwsCognitoCli.profile args) as [p|]; [destruct (truthy p); [discriminate|]|];
        destruct (AwsClientService._get_aws_credentials environ); now inversion Hclient. }
    destruct (credentials_error_kind environ e Hcred) as [msg ->].
    exists msg. auto.
Qed.

(** ** When the consolidator fails *)

Section ConsolidatorFailures.

Import AwsDynamodb.


(** A record with the key [None] fits no header. *)
Lemma restkey_fits_no_header (header : list string) (rowdict : gmap (option string) cell) :
  is_Some (rowdict !! None) -> ~ dom rowdict ⊆ list_to_set (Some <$> header).
Proof.
  intros Hnone Hsub. apply elem_of_dom in Hnone. apply Hsub in Hnone.
  apply elem_of_list_to_set, list_elem_of_fmap in Hnone as (c & Hc & _). discriminate.
Qed.













End ConsolidatorFailures.





(** ** What a record holds *)

Section Records.

Import AwsDynamodb.

Lemma dict_zip_last (c v : string) (fn row : list string) (d : gmap (option string) cell)
    (i : nat) :
  fn !! i = Some c -> (forall j, i < j -> fn !! j <> Some c) -> row !! i = Some v ->
  fold_left (fun d kv => <[Some (fst kv) := Str (snd kv)]> d) (combine fn row) d !! Some c
  = Some (Str v).
Proof.
  revert row d i. induction fn as [|k fn IH]; intros row d i Hfn Hlast Hrow; [discriminate|].
  destruct row as [|v0 row]; [discriminate|]. simpl.
  destruct i as [|i]; simpl in Hfn, Hrow.
  - injection Hfn as ->. injection Hrow as ->.
    rewrite dict_zip_other; [apply lookup_insert_eq|].
    intros Hin. apply list_elem_of_lookup in Hin as [j Hj].
    apply (Hlast (S j)); [lia | exact Hj].
  - apply (IH _ _ i); [exact Hfn | | exact Hrow].
    intros j Hj. apply (Hlast (S j)). lia.
Qed.

Lemma restval_member (c : string) (keys : list string) (d : gmap (option string) cell) :
  c ∈ keys ->
  fold_left (fun d key => <[Some key := NoneVal]> d) keys d !! Some c = Some NoneVal.
Proof.
  revert d. induction keys as [|k keys IH]; intros d Hc; [inversion Hc|]. simpl.
  destruct (decide (c ∈ keys)) as [Hin|Hout]; [now apply IH|].
  rewrite restval_other by exact Hout.
  apply elem_of_cons in Hc as [->|Hc]; [apply lookup_insert_eq | contradiction].
Qed.

End Records.

(** X14: the record read from a line with no more fields than the header.
    A name that is no column of the file is no key of the record; a
    column's name is a key, and where a name heads several columns the
    last of them counts: the record holds that column's field of the
    line, or [None] when the line ends before that column.  The record
    has no key [None]. *)
Theorem read_row_cells (fn row : list string) (c : string) :
  length row <= length fn ->
  (c ∉ fn -> AwsDynamodb.read_row fn row !! Some c = None) /\
  (forall i, fn !! i = Some c -> (forall j, i < j -> fn !! j <> Some c) ->
     AwsDynamodb.read_row fn row !! Some c
     = Some (match row !! i with
             | Some v => AwsDynamodb.Str v
             | None => AwsDynamodb.NoneVal
             end)) /\
  AwsDynamodb.read_row fn row !! None = None.
Proof.
  intros Hlen. split; [|split].
  - intros Hc. unfold AwsDynamodb.read_row.
    destruct (length fn <? length row)%nat eqn:Hlt; [apply Nat.ltb_lt in Hlt; lia|].
    assert (Hz : AwsDynamodb.dict_zip fn row !! Some c = None)
      by (unfold AwsDynamodb.dict_zip; now rewrite dict_zip_other).
    destruct (length row <? length fn)%nat; [|exact Hz].
    rewrite restval_other; [exact Hz|].
    intros Hin. apply Hc. apply list_elem_of_lookup in Hin as [j Hj].
    rewrite lookup_drop in Hj. apply list_elem_of_lookup. eauto.
  - intros i Hfn Hlast. unfold AwsDynamodb.read_row.
    destruct (length fn <? length row)%nat eqn:Hlt; [apply Nat.ltb_lt in Hlt; lia|].
    destruct (row !! i) as [v|] eqn:Hrow.
    + assert (Hz : AwsDynamodb.dict_zip fn row !! Some c = Some (AwsDynamodb.Str v))
        by (unfold AwsDynamodb.dict_zip; now apply (dict_zip_last c v fn row ∅ i)).
      destruct (length row <? length fn)%nat; [|exact Hz].
      rewrite restval_other; [exact Hz|].
      intros Hin. apply list_elem_of_lookup in Hin as [j Hj].
      rewrite lookup_drop in Hj. apply lookup_lt_Some in Hrow.
      apply (Hlast (length row + j)); [lia | exact Hj].
    + apply lookup_ge_None in Hrow. pose proof (lookup_lt_Some _ _ _ Hfn) as Hi.
      assert (Hshort : (length row <? length fn)%nat = true) by (apply Nat.ltb_lt; lia).
      rewrite Hshort. apply restval_member.
      apply list_elem_of_lookup. exists (i - length row).
      rewrite lookup_drop. now replace (length row + (i - length row)) with i by lia.
  - destruct (AwsDynamodb.read_row fn row !! None) as [x|] eqn:Hnone; [|reflexivity].
    exfalso. apply (restkey_fits_no_header fn (AwsDynamodb.read_row fn row)); [eauto|].
    now apply read_row_dom.
Qed.

Lemma read_row_cells_witness :
  AwsDynamodb.read_row ["id"; "tag"; "tag"; "note"] ["1"; "old"; "new"] !! Some "tag"
  = Some (AwsDynamodb.Str "new") /\
  AwsDynamodb.read_row ["id"; "tag"; "tag"; "note"] ["1"; "old"; "new"] !! Some "note"
  = Some AwsDynamodb.NoneVal /\
  AwsDynamodb.read_row ["id"; "tag"; "tag"; "note"] ["1"; "old"; "new"] !! Some "amount" = None.
Proof.
  split; [|split].
  - apply (proj1 (proj2 (read_row_cells ["id"; "tag"; "tag"; "note"] ["1"; "old"; "new"] "tag"
                           ltac:(simpl; lia))) 2 eq_refl).
    intros [|[|[|[|j]]]] Hj; try lia; discriminate.
  - apply (proj1 (proj2 (read_row_cells ["id"; "tag"; "tag"; "note"] ["1"; "old"; "new"] "note"
                           ltac:(simpl; lia))) 3 eq_refl).
    intros [|[|[|[|j]]]] Hj; try lia; discriminate.
  - apply (proj1 (read_row_cells ["id"; "tag"; "tag"; "note"] ["1"; "old"; "new"] "amount"
                    ltac:(simpl; lia))).
    rewrite !not_elem_of_cons. repeat split; try discriminate. apply not_elem_of_nil.
Defined.

(** ** Shape of the output *)

Section OutputShape.

Import AwsDynamodb.

Lemma write_rows_lengths (header : list string) (records : list (gmap (option string) cell))
    (rows : list (list cell)) :
  write_rows header records = Ok rows ->
  length rows = length records /\ Forall (fun r => length r = length header) rows.
Proof.
  revert rows. induction records as [|rowdict records IH]; intros rows; simpl.
  - intros <-%ok_inj. split; [reflexivity | constructor].
  - unfold _dict_to_list at 1.
    destruct (decide (dom rowdict ⊆ list_to_set (Some <$> header))); [|discriminate].
    simpl. destruct (write_rows header records) as [rs|e]; [|discriminate].
    simpl. intros <-%ok_inj. destruct (IH rs eq_refl) as [Hlen Hall].
    split; [simpl; now rewrite Hlen|].
    constructor; [unfold project; apply length_map | exact Hall].
Qed.

Lemma within_limit_nonblank (lines : list (list string)) :
  forallb within_limit (List.filter (fun row => negb (is_blank row)) lines)
  = forallb within_limit lines.
Proof.
  induction lines as [|row lines IH]; [reflexivity|].
  destruct row as [|field row]; simpl; [exact IH | now rewrite IH].
Qed.

Lemma read_file_strip_blank (acc : gset string * list (gmap (option string) cell))
    (file : list (list string)) :
  read_file acc (parsed (strip_blank file)) = read_file acc (parsed file).
Proof.
  destruct file as [|fn lines]; [reflexivity|].
  unfold read_file, records_of. simpl. rewrite within_limit_nonblank.
  destruct (within_limit fn && forallb within_limit lines); [|reflexivity]. simpl.
  do 3 f_equal.
  induction lines as [|row lines IH]; simpl; [reflexivity|].
  destruct (is_blank row) eqn:Hb; simpl; [exact IH|]. rewrite Hb. simpl. now rewrite IH.
Qed.

Lemma read_files_strip_blank (files : list (list (list string)))
    (acc : gset string * list (gmap (option string) cell)) :
  read_files acc (map parsed (map strip_blank files)) = read_files acc (map parsed files).
Proof.
  revert acc. induction files as [|file files IH]; intros acc; simpl; [reflexivity|].
  rewrite read_file_strip_blank.
  destruct (read_file acc (parsed file)); simpl; [apply IH | reflexivity].
Qed.

End OutputShape.

(** X15: the output is rectangular: after a run without exception the
    header lists each column once, and every written row has exactly one
    cell per column of the header. *)
Theorem consolidate_output_rectangular (files : list (list (list string)))
    (out : AwsDynamodb.Output) :
  AwsDynamodb.consolidate files = Ok out ->
  NoDup (AwsDynamodb.out_header out) /\
  Forall (fun r => length r = length (AwsDynamodb.out_header out)) (AwsDynamodb.out_rows out).
Proof.
  unfold AwsDynamodb.consolidate, AwsDynamodb.consolidate_files.
  destruct (AwsDynamodb.read_files (∅, []) (map AwsDynamodb.parsed files)) as [acc|e];
    [|discriminate]. simpl.
  destruct (AwsDynamodb.write_rows (elements acc.1) acc.2) as [rows|e] eqn:Hw; [|discriminate].
  simpl. intros <-%ok_inj. simpl. split; [apply NoDup_elements|].
  now apply (write_rows_lengths _ _ _ Hw).
Qed.

Lemma consolidate_output_rectangular_witness :
  exists out,
    AwsDynamodb.consolidate
      [ [ ["id"; "name"]; ["1"; "ann"]; ["2"] ]; [ ["id"; "amount"]; ["3"; "7"] ] ] = Ok out /\
    Forall (fun r => length r = length (AwsDynamodb.out_header out)) (AwsDynamodb.out_rows out).
Proof.
  eexists. split; [vm_compute; reflexivity|].
  apply (proj2 (consolidate_output_rectangular
                  [ [ ["id"; "name"]; ["1"; "ann"]; ["2"] ]; [ ["id"; "amount"]; ["3"; "7"] ] ]
                  _ ltac:(vm_compute; reflexivity))).
Defined.

(** X16: blank lines do not count: removing the blank lines after the
    header from every input file changes neither the outcome of the run
    nor the file it writes. *)
Theorem consolidate_ignores_blank_lines (files : list (list (list string))) :
  AwsDynamodb.consolidate (map strip_blank files) = AwsDynamodb.consolidate files.
Proof.
  unfold AwsDynamodb.consolidate, AwsDynamodb.consolidate_files.
  now rewrite read_files_strip_blank.
Qed.

(** ** Stripping the type suffixes *)

Lemma string_append_nil_r (s : string) : s +:+ "" = s.
Proof.
  induction s as [|c s IH]; [reflexivity|].
  change (String c (s +:+ "") = String c s). now rewrite IH.
Qed.

Lemma startswith_refl (s : string) : startswith s s = true.
Proof. induction s as [|c s IH]; simpl; [reflexivity|]. now rewrite Ascii.eqb_refl. Qed.

Section Cleanse.

Variables (a : ascii) (old' new : string).

(** The pattern searched for starts with [a]. *)
Let old : string := String a old'.

Lemma replace_from_skips_all (s : string) (n : nat) :
  String.length s <= n -> replace_from old new n s = "".
Proof.
  revert n. induction s as [|c s IH]; intros n Hn; [reflexivity|].
  simpl in Hn. destruct n as [|n]; [lia|]. simpl. apply IH. lia.
Qed.

(** Characters in front of the first [a] are copied. *)
Lemma replace_from_copies_prefix (s t : string) :
  Forall (fun c => c <> a) (list_ascii_of_string s) ->
  replace_from old new 0 (s +:+ t) = s +:+ replace_from old new 0 t.
Proof.
  induction s as [|c s IH]; intros Hs; [reflexivity|].
  inversion Hs as [|? ? Hc Hrest]; subst.
  change (String c s +:+ t) with (String c (s +:+ t)).
  cbn [replace_from]. unfold old at 1. cbn [startswith].
  destruct (Ascii.eqb_spec c a) as [->|_]; [contradiction|].
  rewrite (IH Hrest). reflexivity.
Qed.

Lemma replace_from_whole : replace_from old new 0 old = new.
Proof.
  unfold old. cbn [replace_from].
  rewrite startswith_refl.
  replace (String.length (String a old') - 1) with (String.length old') by (simpl; lia).
  rewrite replace_from_skips_all by lia.
  apply string_append_nil_r.
Qed.

End Cleanse.

Lemma replace_without_first_char (a : ascii) (old' new s : string) :
  Forall (fun c => c <> a) (list_ascii_of_string s) ->
  replace s (String a old') new = s.
Proof.
  intros Hs. unfold replace. rewrite <- (string_append_nil_r s) at 1.
  rewrite replace_from_copies_prefix by exact Hs. simpl. apply string_append_nil_r.
Qed.

Lemma replace_strips_suffix (a : ascii) (old' s : string) :
  Forall (fun c => c <> a) (list_ascii_of_string s) ->
  replace (s +:+ String a old') (String a old') "" = s.
Proof.
  intros Hs. unfold replace. rewrite replace_from_copies_prefix by exact Hs.
  rewrite replace_from_whole. apply string_append_nil_r.
Qed.

(** X17: [cleanse_header] on column names without a blank: a name
    followed by [ (S)] or by [ (N)] is cut back to the name, a bare name
    is kept, so that a header holding an annotated column yields the
    bare name, and columns that differ only in the annotation fall
    together. *)
Theorem cleanse_strips_type_suffix (name : string) (header : gset string) :
  Forall (fun c => c <> " "%char) (list_ascii_of_string name) ->
  AwsDynamodb.cleanse_column (name +:+ " (S)") = name /\
  AwsDynamodb.cleanse_column (name +:+ " (N)") = name /\
  AwsDynamodb.cleanse_column name = name /\
  (name +:+ " (S)" ∈ header \/ name +:+ " (N)" ∈ header \/ name ∈ header ->
   name ∈ AwsDynamodb.cleanse_header header) /\
  AwsDynamodb.cleanse_header {[ name +:+ " (S)"; name +:+ " (N)"; name ]} = {[ name ]}.
Proof.
  intros Hname.
  assert (HS : AwsDynamodb.cleanse_column (name +:+ " (S)") = name).
  { unfold AwsDynamodb.cleanse_column.
    rewrite (replace_strips_suffix " " "(S)" name Hname).
    now apply replace_without_first_char. }
  assert (HN : AwsDynamodb.cleanse_column (name +:+ " (N)") = name).
  { unfold AwsDynamodb.cleanse_column.
    assert (Hkeep : replace (name +:+ " (N)") " (S)" "" = name +:+ " (N)").
    { unfold replace. rewrite (replace_from_copies_prefix " " "(S)" "" name " (N)" Hname).
      reflexivity. }
    rewrite Hkeep. now apply (replace_strips_suffix " " "(N)"). }
  assert (H0 : AwsDynamodb.cleanse_column name = name).
  { unfold AwsDynamodb.cleanse_column.
    rewrite (replace_without_first_char " " "(S)" "" name Hname).
    apply (replace_without_first_char " " "(N)" "" name Hname). }
  split; [exact HS|]. split; [exact HN|]. split; [exact H0|].
  unfold AwsDynamodb.cleanse_header. split.
  - intros Hin. apply elem_of_map.
    destruct Hin as [Hin|[Hin|Hin]]; eexists; (split; [|exact Hin]); congruence.
  - apply set_eq. intros x. rewrite elem_of_map, elem_of_singleton. split.
    + intros (y & -> & Hy). apply elem_of_union in Hy as [Hy|Hy];
        [apply elem_of_union in Hy as [Hy|Hy]|]; apply elem_of_singleton in Hy; congruence.
    + intros ->. exists name. split; [congruence | set_solver].
Qed.

Lemma cleanse_strips_type_suffix_witness :
  AwsDynamodb.cleanse_column "amount (N)" = "amount" /\
  AwsDynamodb.cleanse_header {[ "id (S)"; "id (N)"; "id" ]} = {[ "id" ]}.
Proof.
  assert (Hid : Forall (fun c => c <> " "%char) (list_ascii_of_string "id"))
    by (repeat constructor; discriminate).
  assert (Hamount : Forall (fun c => c <> " "%char) (list_ascii_of_string "amount"))
    by (repeat constructor; discriminate).
  split.
  - apply (proj1 (proj2 (cleanse_strips_type_suffix "amount" ∅ Hamount))).
  - apply (proj2 (proj2 (proj2 (proj2 (cleanse_strips_type_suffix "id" ∅ Hid))))).
Defined.
